(** * Warp transpiler core: rational literals, type translation and two
      AST passes, embedded from the TypeScript sources.

    - [src/passes/literalExpressionEvaluator/rationalLiteral.ts]
      (class RationalLiteral, stringToLiteralValue, and the
      StorageVariableAccessRewriter pass that shares the file);
    - [src/passes/variableDeclarationExpressionSplitter.ts];
    - [src/typeWriter.ts].

    JavaScript values are embedded as follows: a [bigint] is a [Z], a string is
    a [string] whose characters are code units below 256, an array is a [list]
    indexed with stdpp's lookup (an index out of range is [None], JavaScript's
    [undefined]), a [Map] is a [gmap].  A call that can throw returns a [res]. *)

From Stdlib Require Import ZArith Strings.String Strings.Ascii Numbers.DecimalString.
From Stdlib Require Numbers.DecimalZ.
From stdpp Require Import base numbers option list gmap strings.

Local Open Scope string_scope.
Local Open Scope list_scope.
Local Open Scope Z_scope.

(** ** Exceptions and results *)

(** The exceptions the embedded code can raise.  [Error] is JavaScript's plain
    [Error] with its message; the others are the built-in or repository error
    classes of the same name. *)
Inductive exn : Type :=
| Error (message : string)
| SyntaxError
| RangeError
| TypeError
| AssertionError
| TranspileFailedError
| NotSupportedYetError
| WillNotSupportError.

Inductive res (A : Type) : Type :=
| Ok (a : A)
| Throw (e : exn).

Arguments Ok {A} a.
Arguments Throw {A} e.

#[global] Instance res_ret : MRet res := fun _ a => Ok a.
#[global] Instance res_bind : MBind res := fun _ _ f m =>
  match m with
  | Ok a => f a
  | Throw e => Throw e
  end.
#[global] Instance res_fmap : FMap res := fun _ _ f m =>
  match m with
  | Ok a => Ok (f a)
  | Throw e => Throw e
  end.

(** [throw new Error('Attempted rational division by 0')] *)
Definition DivisionByZero : exn := Error "Attempted rational division by 0".

(** ** JavaScript primitives used by the sources *)

Module JS.

(** [a / b] on bigints: truncating division, RangeError on a zero divisor. *)
Definition bigint_div (a b : Z) : res Z :=
  if b =? 0 then Throw RangeError else Ok (Z.quot a b).

(** [a % b] on bigints: the remainder of truncating division. *)
Definition bigint_rem (a b : Z) : res Z :=
  if b =? 0 then Throw RangeError else Ok (Z.rem a b).

(** [a ** b] on bigints: RangeError on a negative exponent. *)
Definition bigint_pow (a b : Z) : res Z :=
  if b <? 0 then Throw RangeError else Ok (a ^ b).

(** [`${n}`] for a bigint: decimal digits, a leading [-] when negative. *)
Definition bigint_toString (n : Z) : string :=
  NilZero.string_of_int (Z.to_int n).

(** [s.split('').filter((c) => c !== x).join('')] *)
Fixpoint removeChar (x : ascii) (s : string) : string :=
  match s with
  | EmptyString => EmptyString
  | String c s' =>
      if Ascii.eqb c x then removeChar x s' else String c (removeChar x s')
  end.

(** [s.startsWith(p)] *)
Definition startsWith (s p : string) : bool := String.prefix p s.

(** [s.includes(c)] for a one-character needle. *)
Fixpoint includes (s : string) (c : ascii) : bool :=
  match s with
  | EmptyString => false
  | String c' s' => Ascii.eqb c' c || includes s' c
  end.

(** All the pieces of [s] between occurrences of the separator [c]:
    [s.split(c)] for a one-character separator. *)
Fixpoint splitAll (c : ascii) (s : string) : list string :=
  match s with
  | EmptyString => [EmptyString]
  | String c' s' =>
      if Ascii.eqb c' c then EmptyString :: splitAll c s'
      else match splitAll c s' with
           | [] => [String c' EmptyString]
           | piece :: pieces => String c' piece :: pieces
           end
  end.

(** [s.split(c, limit)]: the first [limit] pieces; the rest is dropped. *)
Definition split (s : string) (c : ascii) (limit : nat) : list string :=
  take limit (splitAll c s).

(** [s.replace(pattern, '')] with a string pattern: the first occurrence of
    the pattern, read literally, is removed. *)
Fixpoint removeFirst (pattern s : string) : string :=
  if String.prefix pattern s
  then String.substring (String.length pattern)
         (String.length s - String.length pattern) s
  else match s with
       | EmptyString => EmptyString
       | String c s' => String c (removeFirst pattern s')
       end.

(** StrWhiteSpaceChar, among the code units below 256. *)
Definition isWhiteSpace (c : ascii) : bool :=
  match N_of_ascii c with
  | 9 | 10 | 11 | 12 | 13 | 32 | 160 => true
  | _ => false
  end%N.

Fixpoint trimStart (s : string) : string :=
  match s with
  | EmptyString => EmptyString
  | String c s' => if isWhiteSpace c then trimStart s' else s
  end.

Fixpoint trimEnd (s : string) : string :=
  match s with
  | EmptyString => EmptyString
  | String c s' =>
      match trimEnd s' with
      | EmptyString => if isWhiteSpace c then EmptyString else String c EmptyString
      | t => String c t
      end
  end.

(** The value of a digit character: [0-9], [a-f], [A-F]. *)
Definition digitValue (c : ascii) : option Z :=
  let n := Z.of_N (N_of_ascii c) in
  if (48 <=? n) && (n <=? 57) then Some (n - 48)
  else if (97 <=? n) && (n <=? 102) then Some (n - 87)
  else if (65 <=? n) && (n <=? 70) then Some (n - 55)
  else None.

Fixpoint parseDigits (radix acc : Z) (s : string) : option Z :=
  match s with
  | EmptyString => Some acc
  | String c s' =>
      match digitValue c with
      | Some d => if d <? radix then parseDigits radix (acc * radix + d) s' else None
      | None => None
      end
  end.

(** One digit at least. *)
Definition parseDigits1 (radix : Z) (s : string) : option Z :=
  match s with
  | EmptyString => None
  | _ => parseDigits radix 0 s
  end.

(** ECMAScript's StringToBigInt: surrounding white space is dropped; the empty
    string is [0n]; [0x], [0o], [0b] (either case) introduce an unsigned
    literal in that radix; otherwise an optional sign and decimal digits.
    No numeric separator is accepted.  [None] is a syntax error. *)
Definition StringToBigInt (s : string) : option Z :=
  match trimEnd (trimStart s) with
  | EmptyString => Some 0
  | String c rest as t =>
      if Ascii.eqb c "+" then parseDigits1 10 rest
      else if Ascii.eqb c "-" then Z.opp <$> parseDigits1 10 rest
      else match rest with
           | String p digits =>
               if Ascii.eqb c "0" && (Ascii.eqb p "x" || Ascii.eqb p "X")
               then parseDigits1 16 digits
               else if Ascii.eqb c "0" && (Ascii.eqb p "o" || Ascii.eqb p "O")
               then parseDigits1 8 digits
               else if Ascii.eqb c "0" && (Ascii.eqb p "b" || Ascii.eqb p "B")
               then parseDigits1 2 digits
               else parseDigits1 10 t
           | EmptyString => parseDigits1 10 t
           end
  end.

(** [BigInt(s)] on a string. *)
Definition BigInt (s : string) : res Z :=
  match StringToBigInt s with
  | Some n => Ok n
  | None => Throw SyntaxError
  end.

End JS.

(** ** RationalLiteral *)

Record RationalLiteral : Type := mkRationalLiteral {
  numerator : Z;
  denominator : Z
}.

(** The class invariant the constructor establishes. *)
Definition normalised (r : RationalLiteral) : Prop := 0 < denominator r.

Module Rational.

Import JS.

(** [new RationalLiteral(numerator, denominator)] *)
Definition new (n d : Z) : res RationalLiteral :=
  if 0 <? d then Ok (mkRationalLiteral n d)
  else if d <? 0 then Ok (mkRationalLiteral (- n) (- d))
  else Throw (Error "Attempted rational division by 0").

Definition equalValueOf (this other : RationalLiteral) : bool :=
  numerator this * denominator other =? numerator other * denominator this.

Definition greaterThan (this other : RationalLiteral) : bool :=
  numerator this * denominator other >? numerator other * denominator this.

Definition add (this other : RationalLiteral) : res RationalLiteral :=
  if denominator this =? denominator other then
    new (numerator this + numerator other) (denominator this)
  else
    r ← bigint_rem (denominator this) (denominator other);
    if r =? 0 then
      q ← bigint_div (numerator other * denominator this) (denominator other);
      new (numerator this + q) (denominator this)
    else
      r' ← bigint_rem (denominator other) (denominator this);
      if r' =? 0 then
        q ← bigint_div (numerator this * denominator other) (denominator this);
        new (numerator other + q) (denominator other)
      else
        new (numerator this * denominator other + numerator other * denominator this)
            (denominator this * denominator other).

Definition subtract (this other : RationalLiteral) : res RationalLiteral :=
  negated ← new (- numerator other) (denominator other);
  add this negated.

Definition multiply (this other : RationalLiteral) : res RationalLiteral :=
  new (numerator this * numerator other) (denominator this * denominator other).

Definition divideBy (this other : RationalLiteral) : res RationalLiteral :=
  new (numerator this * denominator other) (denominator this * numerator other).

(** [toInteger]: [None] is JavaScript's [null]. *)
Definition toInteger (this : RationalLiteral) : res (option Z) :=
  r ← bigint_rem (numerator this) (denominator this);
  if r =? 0 then
    q ← bigint_div (numerator this) (denominator this);
    Ok (Some q)
  else Ok None.

(** [exp]: [Ok None] is the [null] result. *)
Definition exp (this other : RationalLiteral) : res (option RationalLiteral) :=
  op ← toInteger other;
  match op with
  | None => Ok None
  | Some op =>
      if op =? 0 then Some <$> new 1 1
      else if 0 <? op then
        n ← bigint_pow (numerator this) op;
        d ← bigint_pow (denominator this) op;
        Some <$> new n d
      else if 0 <? numerator this then
        n ← bigint_pow (denominator this) (- op);
        d ← bigint_pow (numerator this) (- op);
        Some <$> new n d
      else if numerator this <? 0 then
        n ← bigint_pow (- denominator this) (- op);
        d ← bigint_pow (- numerator this) (- op);
        Some <$> new n d
      else Some <$> new 0 1
  end.

Definition mod_ (this other : RationalLiteral) : res RationalLiteral :=
  n ← bigint_rem (numerator this * denominator other)
                 (numerator other * denominator this);
  new n (denominator this * denominator other).

Definition toString (this : RationalLiteral) : string :=
  bigint_toString (numerator this) +:+ "/" +:+ bigint_toString (denominator this).

(** *** Literal parsing

    The four [console.log] calls of [scientificNotationToLiteral] write to the
    console only and are left out. *)

Definition intToLiteral (value : string) : res RationalLiteral :=
  n ← BigInt value;
  new n 1.

Definition decimalToLiteral (value : string) : res RationalLiteral :=
  let parts := split value "." 2 in
  match parts !! 0%nat, parts !! 1%nat with
  | Some part0, Some part1 =>
      (* the patterns are string literals, not regular expressions *)
      let intPart := removeFirst "/^0+/" part0 in
      let decimalPart := removeFirst "/0+$" part1 in
      if String.eqb intPart "" && String.eqb decimalPart "" then new 0 1
      else
        n ← BigInt (intPart +:+ decimalPart);
        d ← bigint_pow 10 (Z.of_nat (String.length decimalPart));
        new n d
  | _, _ => Throw TypeError
  end.

Definition scientificNotationToLiteral (value : string) : res RationalLiteral :=
  let parts := split value "e" 2 in
  match parts !! 0%nat with
  | Some part0 =>
      coefficient ← (if includes part0 "." then decimalToLiteral part0
                     else intToLiteral part0);
      exponent ← match parts !! 1%nat with
                 | Some part1 => BigInt part1
                 | None => Throw TypeError
                 end;
      ten ← new 10 1;
      power ← new exponent 1;
      rationalExponentFactor ← exp ten power;
      match rationalExponentFactor with
      | Some factor => multiply coefficient factor
      | None => Throw TypeError
      end
  | None => Throw TypeError
  end.

Definition stringToLiteralValue (value : string) : res RationalLiteral :=
  let tidiedValue := removeChar "_" value in
  if startsWith tidiedValue "0x" then intToLiteral value
  else if includes tidiedValue "e" then scientificNotationToLiteral value
  else if includes tidiedValue "." then decimalToLiteral value
  else intToLiteral value.

End Rational.

(** ** Type translation ([src/typeWriter.ts]) *)

Module DataLocation.
Inductive t : Type := Storage | Memory | CallData | Default.
End DataLocation.

#[local] Set Warnings "-register-all".

(** The type nodes of the front end that [typeWriter.ts] imports. *)
Inductive TypeNode : Type :=
| IntType (nBits : Z) (signed : bool)
| BoolType
| AddressType (payable : bool)
| StringType
| BytesType
| ArrayType (elementT : TypeNode) (size : option Z)
| MappingType (keyType valueType : TypeNode)
| FunctionType (parameters returns : list TypeNode)
| TupleType (elements : list TypeNode)
| PointerType (to : TypeNode) (location : DataLocation.t)
| UserDefinedType (name : string)
| BuiltinType (name : string)
| BuiltinStructType (name : string).

Module TypeWriter.

Definition quote : string := String (ascii_of_nat 34) EmptyString.

(** [tp.constructor.name] *)
Definition constructorName (tp : TypeNode) : string :=
  match tp with
  | IntType _ _ => "IntType"
  | BoolType => "BoolType"
  | AddressType _ => "AddressType"
  | StringType => "StringType"
  | BytesType => "BytesType"
  | ArrayType _ _ => "ArrayType"
  | MappingType _ _ => "MappingType"
  | FunctionType _ _ => "FunctionType"
  | TupleType _ => "TupleType"
  | PointerType _ _ => "PointerType"
  | UserDefinedType _ => "UserDefinedType"
  | BuiltinType _ => "BuiltinType"
  | BuiltinStructType _ => "BuiltinStructType"
  end.

Section CairoType.

(** [canonicalMangler] of [./utils/utils], which is not among the sources. *)
Variable canonicalMangler : string → string.
(** The string a type node converts to inside a template literal. *)
Variable typeNodeToString : TypeNode → string.

Fixpoint cairoType (tp : TypeNode) : res string :=
  match tp with
  | IntType nBits _ => Ok (if 251 <? nBits then "Uint256" else "felt")
  | ArrayType elementT _ => t ← cairoType elementT; Ok (t +:+ "*")
  | BoolType => Ok "felt"
  | BytesType => Ok "felt*"
  | StringType => Ok "felt"
  | AddressType _ => Ok "felt"
  | BuiltinType name => Ok (canonicalMangler name)
  | BuiltinStructType name => Ok (canonicalMangler name)
  | MappingType keyType valueType =>
      t ← cairoType valueType; Ok (typeNodeToString keyType +:+ " => " +:+ t)
  | UserDefinedType name => Ok (canonicalMangler name)
  | FunctionType _ _ => Ok "felt*"
  | PointerType to _ => cairoType to
  | TupleType _ =>
      Throw (Error ("Don't know how to convert type "
                    +:+ quote +:+ constructorName tp +:+ quote))
  end.

End CairoType.

End TypeWriter.

(** ** The typed AST

    The node classes of the front end, with the fields the passes read or set.
    Links between nodes are by id; a field that can be [undefined] or [null] is
    an [option]. *)

Module LiteralKind.
Inductive t : Type := Number | Bool | String | HexString | UnicodeString.
End LiteralKind.

Module StateVariableVisibility.
Inductive t : Type := Default | Private | Internal | Public | External.
End StateVariableVisibility.

Module Mutability.
Inductive t : Type := Mutable | Immutable | Constant.
End Mutability.

Inductive TypeName : Type :=
| ElementaryTypeName (id : nat) (src type typeString name : string)
| Mapping (id : nat) (src type typeString : string) (vKeyType vValueType : TypeName)
| OtherTypeName (id : nat) (src type typeString : string).

Module VariableDeclaration.
Record t : Type := make {
  id : nat;
  src : string;
  type : string;
  constant : bool;
  indexed : bool;
  name : string;
  scope : nat;
  stateVariable : bool;
  storageLocation : DataLocation.t;
  visibility : StateVariableVisibility.t;
  mutability : Mutability.t;
  typeString : string;
  documentation : option string;
  vType : option TypeName
}.
End VariableDeclaration.

(** What an identifier can refer to. *)
Inductive Declaration : Type :=
| DeclaredVariable (decl : VariableDeclaration.t)
| OtherDeclaration (id : nat).

Inductive Expression : Type :=
| Identifier (id : nat) (src type typeString name : string) (referencedDeclaration : nat)
| Literal (id : nat) (src type typeString : string) (kind : LiteralKind.t)
          (hexValue value : string)
| AssignmentExpression (node : Assignment)
| IndexAccess (id : nat) (src typeString : string)
              (vBaseExpression : Expression) (vIndexExpression : option Expression)
| FunctionCall (id : nat) (src typeString : string)
               (vExpression : Expression) (vArguments : list Expression)
| TupleExpression (id : nat) (src typeString : string) (isInlineArray : bool)
                  (vOriginalComponents : list (option Expression))
| OtherExpression (id : nat) (src type typeString : string)
with Assignment : Type :=
| mkAssignment (id : nat) (src typeString operator : string)
               (vLeftHandSide vRightHandSide : Expression).

Definition vLeftHandSide (node : Assignment) : Expression :=
  match node with mkAssignment _ _ _ _ lhs _ => lhs end.

Definition vRightHandSide (node : Assignment) : Expression :=
  match node with mkAssignment _ _ _ _ _ rhs => rhs end.

Module VariableDeclarationStatement.
Record t : Type := make {
  id : nat;
  src : string;
  type : string;
  assignments : list (option nat);
  vDeclarations : list VariableDeclaration.t;
  vInitialValue : option Expression;
  documentation : option string;
  raw : option string
}.
End VariableDeclarationStatement.

Module ExpressionStatement.
Record t : Type := make {
  id : nat;
  src : string;
  type : string;
  vExpression : option Expression;
  documentation : option string;
  raw : option string
}.
End ExpressionStatement.

Inductive Statement : Type :=
| DeclarationStatement (s : VariableDeclarationStatement.t)
| ExprStatement (s : ExpressionStatement.t).

Inductive ASTNode : Type :=
| ExpressionNode (e : Expression)
| AssignmentNode (a : Assignment)
| StatementNode (s : Statement)
| VariableDeclarationNode (d : VariableDeclaration.t).

(** ** The mutable objects of a pass

    The context operations of [../ast/ast], which is not among the sources,
    are recorded in call order with their arguments as they are at the call. *)

Inductive Event : Type :=
| replaceNode (old new : ASTNode)
| registerChild (child parent : ASTNode)
| setContextRecursive (node : ASTNode).

Record World : Type := mkWorld {
  lastId : nat;                (* the context's id counter *)
  lastUsedConstantId : nat;    (* the splitter's name counter *)
  events : list Event
}.

Definition M (A : Type) : Type := World → res (A * World).

#[global] Instance M_ret : MRet M := fun _ a w => Ok (a, w).
#[global] Instance M_bind : MBind M := fun _ _ f m w =>
  match m w with
  | Ok (a, w') => f a w'
  | Throw e => Throw e
  end.

Definition throw {A} (e : exn) : M A := fun _ => Throw e.

Definition emit (ev : Event) : M unit := fun w =>
  Ok (tt, mkWorld (lastId w) (lastUsedConstantId w) (events w ++ [ev])).

(** Modelled from the spec: [ast.reserveId()] of [../ast/ast], which is not
    among the sources.  Ids are unique and monotonic within a context: the
    next id is one above the last. *)
Definition reserveId : M nat := fun w =>
  Ok (S (lastId w), mkWorld (S (lastId w)) (lastUsedConstantId w) (events w)).

(** [`${n}`] for an integer-valued number below 10^21. *)
Definition number_toString (n : Z) : string := JS.bigint_toString n.

(** [array.map((x, index) => f(x, index))] with a callback that has effects. *)
Fixpoint mapWithIndex {A B} (f : A → nat → M B) (index : nat) (l : list A)
  : M (list B) :=
  match l with
  | [] => mret []
  | x :: l' =>
      y ← f x index;
      ys ← mapWithIndex f (S index) l';
      mret (y :: ys)
  end.

(** [array.filter(notNull)] *)
Definition filterNotNull {A} (l : list (option A)) : list A := omap id l.

(** ** Declaration splitter ([src/passes/variableDeclarationExpressionSplitter.ts]) *)

Module VariableDeclarationExpressionSplitter.

Module VD := VariableDeclaration.
Module VDS := VariableDeclarationStatement.
Module ES := ExpressionStatement.

(** [`__warp_td_${this.lastUsedConstantId++}`] *)
Definition generateNewConstantName : M string := fun w =>
  Ok ("__warp_td_" +:+ number_toString (Z.of_nat (lastUsedConstantId w)),
      mkWorld (lastId w) (S (lastUsedConstantId w)) (events w)).

(** [decls.find((decl) => decl.id === id)] *)
Definition findDeclaration (decls : list VD.t) (id : nat) : option VD.t :=
  List.find (fun decl => Nat.eqb (VD.id decl) id) decls.

(** The node as it is while the callback of the call branch runs: its
    declarations grow by [push], its assignments are still the old ones. *)
Definition withDeclarations (node : VDS.t) (decls : list VD.t) : VDS.t :=
  VDS.make (VDS.id node) (VDS.src node) (VDS.type node) (VDS.assignments node)
           decls (VDS.vInitialValue node) (VDS.documentation node) (VDS.raw node).

Section Splitter.

(** [getNodeType(e, ast.compilerVersion)] and [TypeNode.pp()] of the front end. *)
Variable getNodeType : Expression → TypeNode.
Variable pp : TypeNode → string.

(** The callback of [node.assignments.map] in the call branch, threaded
    through the slots: [decls] is [node.vDeclarations] and [statements] is
    [newDeclarationStatements], both as mutated so far. *)
Fixpoint extractSlots (node : VDS.t) (elements : list TypeNode) (index : nat)
    (ids : list (option nat)) (decls : list VD.t) (statements : list VDS.t)
  : M (list (option nat) * list VD.t * list VDS.t) :=
  match ids with
  | [] => mret ([], decls, statements)
  | None :: ids' =>
      '(newIds, decls', statements') ←
        extractSlots node elements (S index) ids' decls statements;
      mret (None :: newIds, decls', statements')
  | Some id :: ids' =>
      match findDeclaration decls id with
      | None => throw AssertionError
      | Some oldDeclaration =>
          match elements !! index with
          | None => throw TypeError
          | Some element =>
              if String.eqb (VD.typeString oldDeclaration) (pp element) then
                '(newIds, decls', statements') ←
                  extractSlots node elements (S index) ids' decls statements;
                mret (Some id :: newIds, decls', statements')
              else
                declarationId ← reserveId;
                newName ← generateNewConstantName;
                typeNameId ← reserveId;
                let newDeclaration :=
                  VD.make declarationId (VDS.src node) "VariableDeclaration"
                    true false newName (VD.scope oldDeclaration) false
                    DataLocation.Default StateVariableVisibility.Default
                    Mutability.Constant (pp element) None
                    (Some (ElementaryTypeName typeNameId (VDS.src node)
                             "ElementaryTypeName" (pp element) (pp element))) in
                let decls1 := decls ++ [newDeclaration] in
                emit (registerChild (VariableDeclarationNode newDeclaration)
                        (StatementNode (DeclarationStatement
                                          (withDeclarations node decls1))));;
                statementId ← reserveId;
                identifierId ← reserveId;
                let newDeclarationStatement :=
                  VDS.make statementId (VDS.src node) "VariableDeclarationStatement"
                    [Some (VD.id oldDeclaration)] [oldDeclaration]
                    (Some (Identifier identifierId (VDS.src node) "Identifier"
                             (VD.typeString newDeclaration) (VD.name newDeclaration)
                             (VD.id newDeclaration)))
                    None None in
                emit (setContextRecursive
                        (StatementNode (DeclarationStatement newDeclarationStatement)));;
                '(newIds, decls', statements') ←
                  extractSlots node elements (S index) ids' decls1
                    (statements ++ [newDeclarationStatement]);
                mret (Some (VD.id newDeclaration) :: newIds, decls', statements')
          end
      end
  end.

(** The callback of [node.assignments.map] in the tuple branch.  [None] is the
    callback's [null]. *)
Definition splitSlot (node : VDS.t) (initialValue_src : string)
    (vOriginalComponents : list (option Expression))
    (declId : option nat) (tupleIndex : nat) : M (option Statement) :=
  let exprToAssign := vOriginalComponents !! tupleIndex in
  match declId with
  | None =>
      match exprToAssign with
      | Some None => mret None
      | _ =>
          id ← reserveId;
          mret (Some (ExprStatement
            (ES.make id initialValue_src "ExpressionStatement"
               (mjoin exprToAssign)
               (if Nat.eqb tupleIndex 0 then VDS.documentation node else None)
               (if Nat.eqb tupleIndex 0 then VDS.raw node else None))))
      end
  | Some declId =>
      match findDeclaration (VDS.vDeclarations node) declId with
      | None => throw AssertionError
      | Some decl =>
          id ← reserveId;
          mret (Some (DeclarationStatement
            (VDS.make id (VDS.src node) "VariableDeclarationStatement"
               [Some declId] [decl]
               (mjoin exprToAssign)
               (if Nat.eqb tupleIndex 0 then VDS.documentation node else None)
               (if Nat.eqb tupleIndex 0 then VDS.raw node else None))))
      end
  end.

Definition splitDeclaration (node : VDS.t) : M (list Statement) :=
  if Nat.eqb (length (VDS.vDeclarations node)) 1 then
    mret [DeclarationStatement node]
  else
    match VDS.vInitialValue node with
    | None => throw AssertionError
    | Some (FunctionCall _ _ _ _ _ as initialValue) =>
        match getNodeType initialValue with
        | TupleType elements =>
            '(newAssignedIds, decls, newDeclarationStatements) ←
              extractSlots node elements 0 (VDS.assignments node)
                (VDS.vDeclarations node) [];
            let node' :=
              VDS.make (VDS.id node) (VDS.src node) (VDS.type node) newAssignedIds
                (filter (fun decl => Some (VD.id decl) ∈ newAssignedIds) decls)
                (VDS.vInitialValue node) (VDS.documentation node) (VDS.raw node) in
            mret (DeclarationStatement node'
                    :: (DeclarationStatement <$> newDeclarationStatements))
        | _ => mret [DeclarationStatement node]
        end
    | Some (TupleExpression _ src _ _ vOriginalComponents) =>
        slots ← mapWithIndex (splitSlot node src vOriginalComponents) 0
                  (VDS.assignments node);
        mret (filterNotNull slots)
    | Some _ => throw TranspileFailedError
    end.

End Splitter.

End VariableDeclarationExpressionSplitter.

(** ** Storage variable access rewriter
       ([StorageVariableAccessRewriter.visitAssignment]) *)

(** Modelled from the spec: [CairoContract] of [../ast/cairoNodes], which is
    not among the sources.  Its allocation table maps a state variable (keyed
    here by the id of its declaration) to its slot. *)
Record CairoContract : Type := mkCairoContract {
  storageAllocations : gmap nat Z
}.

Module StorageVariableAccessRewriter.

Module VD := VariableDeclaration.

Section Rewriter.

(** [Identifier.vReferencedDeclaration]: the context's lookup of the id. *)
Variable locate : nat → option Declaration.
(** [node.getClosestParentByType(CairoContract)] *)
Variable getClosestParentByType_CairoContract : Assignment → option CairoContract.
(** [getNodeType(e, ast.compilerVersion)] and [TypeNode.pp()] of the front end. *)
Variable getNodeType : Expression → TypeNode.
Variable pp : TypeNode → string.
(** [toHexString] and [typeNameFromTypeNode] of [../utils/utils]. *)
Variable toHexString : string → string.
Variable typeNameFromTypeNode : TypeNode → M TypeName.
(** [ast.cairoUtilFuncGen.storageWrite] and [.writeMapping]. *)
Variable storageWrite : VariableDeclaration.t → Expression → Expression → M Expression.
Variable writeMapping : Expression → Expression → TypeName → Expression → M Expression.
(** [this.dispatchVisit] and [this.commonVisit] of [../ast/mapper]. *)
Variable dispatchVisit : Expression → M unit.
Variable commonVisit : Assignment → M unit.

(** [node.getClosestParentByType(CairoContract)?.storageAllocations.get(decl)] *)
Definition allocationOf (node : Assignment) (decl : VD.t) : option Z :=
  contract ← getClosestParentByType_CairoContract node;
  storageAllocations contract !! VD.id decl.

(** The slot literal of the storage branch. *)
Definition slotLiteral (id : nat) (allocation : Z) : Expression :=
  Literal id "" "Literal" ("int_const " +:+ number_toString allocation)
    LiteralKind.Number (toHexString (number_toString allocation))
    (number_toString allocation).

Definition visitAssignment (node : Assignment) : M unit :=
  match vLeftHandSide node with
  | Identifier _ _ _ _ _ referencedDeclaration =>
      match locate referencedDeclaration with
      | Some (DeclaredVariable decl) =>
          if VD.stateVariable decl then
            match allocationOf node decl with
            | None => throw AssertionError
            | Some allocation =>
                id ← reserveId;
                call ← storageWrite decl (slotLiteral id allocation)
                         (vRightHandSide node);
                emit (replaceNode (AssignmentNode node) (ExpressionNode call));;
                dispatchVisit (vRightHandSide node)
            end
          else commonVisit node
      | _ => commonVisit node
      end
  | IndexAccess _ _ _ vBaseExpression vIndexExpression =>
      match getNodeType vBaseExpression with
      | PointerType (MappingType keyType valueType as to) _ =>
          match vIndexExpression with
          | None => throw AssertionError
          | Some index =>
              id ← reserveId;
              keyTypeName ← typeNameFromTypeNode keyType;
              valueTypeName ← typeNameFromTypeNode valueType;
              let mappingTypeName :=
                Mapping id "" "Mapping" (pp to) keyTypeName valueTypeName in
              replacementFunc ← writeMapping vBaseExpression index mappingTypeName
                                  (vRightHandSide node);
              emit (replaceNode (AssignmentNode node) (ExpressionNode replacementFunc));;
              dispatchVisit replacementFunc
          end
      | _ => throw NotSupportedYetError
      end
  | _ => commonVisit node
  end.

End Rewriter.

Section IndexAccessRewriter.

(** [Identifier.vReferencedDeclaration]: the context's lookup of the id. *)
Variable locate : nat → option Declaration.
(** [getNodeType(e, ast.compilerVersion)] of the front end. *)
Variable getNodeType : Expression → TypeNode.
(** [cloneTypeName] of [../utils/cloning]. *)
Variable cloneTypeName : TypeName → M TypeName.
(** [ast.cairoUtilFuncGen.readMapping]. *)
Variable readMapping : Expression → Expression → TypeName → M Expression.
(** [this.commonVisit] of [../ast/mapper], on the replacement. *)
Variable commonVisit : Expression → M unit.

(** [visitIndexAccess(node, ast)], the node given by its fields. *)
Definition visitIndexAccess (id : nat) (src typeString : string)
    (vBaseExpression : Expression) (vIndexExpression : option Expression)
  : M unit :=
  let node := IndexAccess id src typeString vBaseExpression vIndexExpression in
  match vIndexExpression with
  | None => throw WillNotSupportError
  | Some index =>
      match getNodeType vBaseExpression with
      | PointerType (MappingType _ _) _ =>
          match vBaseExpression with
          | Identifier _ _ _ _ _ referencedDeclaration =>
              match locate referencedDeclaration with
              | Some (DeclaredVariable decl) =>
                  match VD.vType decl with
                  | None => throw AssertionError
                  | Some vType =>
                      type ← cloneTypeName vType;
                      match type with
                      | Mapping _ _ _ _ _ _ =>
                          replacementFunc ← readMapping vBaseExpression index type;
                          emit (replaceNode (ExpressionNode node)
                                  (ExpressionNode replacementFunc));;
                          commonVisit replacementFunc
                      | _ => throw AssertionError
                      end
                  end
              | _ => throw AssertionError
              end
          | _ => throw AssertionError
          end
      | _ => throw NotSupportedYetError
      end
  end.

End IndexAccessRewriter.

End StorageVariableAccessRewriter.

(** ** Definitions used to state the properties *)

(** Every character of [s] satisfies [P]. *)
Fixpoint allChars (P : ascii → bool) (s : string) : bool :=
  match s with
  | EmptyString => true
  | String c s' => P c && allChars P s'
  end.

Definition isDigit (c : ascii) : bool :=
  ((48 <=? N_of_ascii c) && (N_of_ascii c <=? 57))%N.

(** The characters of a printed rational: digits, the sign and the bar. *)
Definition printedChar (c : ascii) : bool :=
  isDigit c || Ascii.eqb c "-" || Ascii.eqb c "/".

Definition isFunctionCall (e : Expression) : bool :=
  match e with FunctionCall _ _ _ _ _ => true | _ => false end.

Definition isTupleExpression (e : Expression) : bool :=
  match e with TupleExpression _ _ _ _ _ => true | _ => false end.

Definition isTupleType (t : TypeNode) : bool :=
  match t with TupleType _ => true | _ => false end.

Definition Statement_documentation (s : Statement) : option string :=
  match s with
  | DeclarationStatement s => VariableDeclarationStatement.documentation s
  | ExprStatement s => ExpressionStatement.documentation s
  end.

Definition Statement_raw (s : Statement) : option string :=
  match s with
  | DeclarationStatement s => VariableDeclarationStatement.raw s
  | ExprStatement s => ExpressionStatement.raw s
  end.

(** A statement that carries neither documentation nor raw annotation. *)
Definition unannotated (s : Statement) : Prop :=
  Statement_documentation s = None ∧ Statement_raw s = None.

(** What a statement is made of, its id, source span and annotations apart. *)
Inductive Emitted : Type :=
| EmittedExpression (expression : option Expression)
| EmittedDeclaration (assignments : list (option nat))
                     (declarations : list VariableDeclaration.t)
                     (initialValue : option Expression).

Definition shape (s : Statement) : Emitted :=
  match s with
  | ExprStatement s => EmittedExpression (ExpressionStatement.vExpression s)
  | DeclarationStatement s =>
      EmittedDeclaration (VariableDeclarationStatement.assignments s)
        (VariableDeclarationStatement.vDeclarations s)
        (VariableDeclarationStatement.vInitialValue s)
  end.

(** The specification's rule for one slot of a tuple initialiser, with
    assignment id [L] and component [R]: nothing when both are null, the
    component as an expression statement when only [L] is null, and otherwise
    a declaration statement binding the one declaration of id [L], with [R]
    as initialiser when present.  (An id without a declaration emits nothing
    here; the theorems assume every id has one.) *)
Definition emittedBy (decls : list VariableDeclaration.t)
    (L : option nat) (R : option Expression) : list Emitted :=
  match L, R with
  | None, None => []
  | None, Some component => [EmittedExpression (Some component)]
  | Some declId, _ =>
      match VariableDeclarationExpressionSplitter.findDeclaration decls declId with
      | Some decl => [EmittedDeclaration [Some declId] [decl] R]
      | None => []
      end
  end.

(** Every assignment id of [node] has a declaration in [node]. *)
Definition declarationsResolve (node : VariableDeclarationStatement.t) : Prop :=
  Forall (fun L => ∀ declId, L = Some declId →
            is_Some (VariableDeclarationExpressionSplitter.findDeclaration
                       (VariableDeclarationStatement.vDeclarations node) declId))
         (VariableDeclarationStatement.assignments node).

(** The value an unsigned decimal numeral adds to the digits read so far. *)
Fixpoint uintValue (d : Decimal.uint) (acc : Z) : Z :=
  match d with
  | Decimal.Nil => acc
  | Decimal.D0 l => uintValue l (acc * 10 + 0)
  | Decimal.D1 l => uintValue l (acc * 10 + 1)
  | Decimal.D2 l => uintValue l (acc * 10 + 2)
  | Decimal.D3 l => uintValue l (acc * 10 + 3)
  | Decimal.D4 l => uintValue l (acc * 10 + 4)
  | Decimal.D5 l => uintValue l (acc * 10 + 5)
  | Decimal.D6 l => uintValue l (acc * 10 + 6)
  | Decimal.D7 l => uintValue l (acc * 10 + 7)
  | Decimal.D8 l => uintValue l (acc * 10 + 8)
  | Decimal.D9 l => uintValue l (acc * 10 + 9)
  end.

(** [0-9a-fA-F] *)
Definition isHexDigit (c : ascii) : bool :=
  match JS.digitValue c with Some _ => true | None => false end.


Definition Statement_id (s : Statement) : nat :=
  match s with
  | DeclarationStatement s => VariableDeclarationStatement.id s
  | ExprStatement s => ExpressionStatement.id s
  end.

Definition isIdentifier (e : Expression) : bool :=
  match e with Identifier _ _ _ _ _ _ => true | _ => false end.

(** A statement that binds one declaration to an identifier. *)
Definition followUp (s : VariableDeclarationStatement.t) : Prop :=
  ∃ decl identifier,
    VariableDeclarationStatement.assignments s = [Some (VariableDeclaration.id decl)]
    ∧ VariableDeclarationStatement.vDeclarations s = [decl]
    ∧ VariableDeclarationStatement.vInitialValue s = Some identifier
    ∧ isIdentifier identifier = true.

(** *** Sample nodes *)

Module Sample.

Definition declaration (id : nat) (name : string) : VariableDeclaration.t :=
  VariableDeclaration.make id "0:0:0" "VariableDeclaration" false false name 1
    false DataLocation.Default StateVariableVisibility.Internal Mutability.Mutable
    "uint256" None
    (Some (ElementaryTypeName (id + 100) "0:0:0" "ElementaryTypeName" "uint256" "uint256")).

Definition number (id : nat) (value : string) : Expression :=
  Literal id "0:0:0" "Literal" ("int_const " +:+ value) LiteralKind.Number "" value.

Definition world : World := mkWorld 50 0 [].

(** [(uint a, uint b) = f();] where the call's type is not a tuple. *)
Definition callStatement : VariableDeclarationStatement.t :=
  VariableDeclarationStatement.make 20 "0:0:0" "VariableDeclarationStatement"
    [Some 11%nat; Some 12%nat] [declaration 11 "a"; declaration 12 "b"]
    (Some (FunctionCall 21 "0:0:0" "uint256"
             (OtherExpression 22 "0:0:0" "Identifier" "function") []))
    (Some "doc") None.

(** The front end's typing of [callStatement]'s initialiser. *)
Definition callType (e : Expression) : TypeNode := IntType 256 false.

(** [(, uint b, uint c) = (, 1, 2);] with documentation. *)
Definition gapStatement : VariableDeclarationStatement.t :=
  VariableDeclarationStatement.make 30 "0:0:0" "VariableDeclarationStatement"
    [None; Some 11%nat; Some 12%nat] [declaration 11 "b"; declaration 12 "c"]
    (Some (TupleExpression 31 "1:1:1" "tuple()" false
             [None; Some (number 32 "1"); Some (number 33 "2")]))
    (Some "doc") (Some "raw").

(** [(uint a, , uint c) = (1, g, 2);] with documentation. *)
Definition tupleStatement : VariableDeclarationStatement.t :=
  VariableDeclarationStatement.make 40 "0:0:0" "VariableDeclarationStatement"
    [Some 11%nat; None; Some 12%nat] [declaration 11 "a"; declaration 12 "c"]
    (Some (TupleExpression 41 "1:1:1" "tuple()" false
             [Some (number 42 "1"); Some (number 43 "7"); Some (number 44 "2")]))
    (Some "doc") (Some "raw").

(** [(uint a, uint b) = 5;]: neither a call nor a tuple. *)
Definition otherStatement : VariableDeclarationStatement.t :=
  VariableDeclarationStatement.make 60 "0:0:0" "VariableDeclarationStatement"
    [Some 11%nat; Some 12%nat] [declaration 11 "a"; declaration 12 "b"]
    (Some (number 61 "5")) None None.

(** [(uint a, uint b) = (1, 2);] whose second slot names an id, 13, that no
    declaration of the statement has. *)
Definition danglingStatement : VariableDeclarationStatement.t :=
  VariableDeclarationStatement.make 80 "0:0:0" "VariableDeclarationStatement"
    [Some 11%nat; Some 13%nat] [declaration 11 "a"; declaration 12 "b"]
    (Some (TupleExpression 81 "1:1:1" "tuple()" false
             [Some (number 82 "1"); Some (number 83 "2")]))
    None None.

(** [TypeNode.pp()] on the integer types of the samples. *)
Definition printType (t : TypeNode) : string :=
  match t with
  | IntType nBits _ => "uint" +:+ number_toString nBits
  | _ => "type"
  end.

(** [(uint a, uint b) = f();] where [f] returns [(uint256, uint256)]. *)
Definition matchingStatement : VariableDeclarationStatement.t :=
  VariableDeclarationStatement.make 90 "0:0:0" "VariableDeclarationStatement"
    [Some 11%nat; Some 12%nat] [declaration 11 "a"; declaration 12 "b"]
    (Some (FunctionCall 91 "0:0:0" "tuple(uint256,uint256)"
             (OtherExpression 92 "0:0:0" "Identifier" "function") []))
    None None.

Definition tupleType (e : Expression) : TypeNode :=
  TupleType [IntType 256 false; IntType 256 false].

(** [(uint a, uint b) = f();] where [f] returns [(uint8, uint256)]. *)
Definition mismatchStatement : VariableDeclarationStatement.t :=
  VariableDeclarationStatement.make 90 "0:0:0" "VariableDeclarationStatement"
    [Some 11%nat; Some 12%nat] [declaration 11 "a"; declaration 12 "b"]
    (Some (FunctionCall 91 "0:0:0" "tuple(uint8,uint256)"
             (OtherExpression 92 "0:0:0" "Identifier" "function") []))
    None None.

Definition mismatchType (e : Expression) : TypeNode :=
  TupleType [IntType 8 false; IntType 256 false].

(** What the splitter makes of [mismatchStatement] in [world]. *)
Definition temporary : VariableDeclaration.t :=
  VariableDeclaration.make 51 "0:0:0" "VariableDeclaration" true false
    "__warp_td_0" 1 false DataLocation.Default StateVariableVisibility.Default
    Mutability.Constant "uint8" None
    (Some (ElementaryTypeName 52 "0:0:0" "ElementaryTypeName" "uint8" "uint8")).

Definition rewrittenStatement : VariableDeclarationStatement.t :=
  VariableDeclarationStatement.make 90 "0:0:0" "VariableDeclarationStatement"
    [Some 51%nat; Some 12%nat] [declaration 12 "b"; temporary]
    (Some (FunctionCall 91 "0:0:0" "tuple(uint8,uint256)"
             (OtherExpression 92 "0:0:0" "Identifier" "function") []))
    None None.

Definition followUpStatement : VariableDeclarationStatement.t :=
  VariableDeclarationStatement.make 53 "0:0:0" "VariableDeclarationStatement"
    [Some 11%nat] [declaration 11 "a"]
    (Some (Identifier 54 "0:0:0" "Identifier" "uint8" "__warp_td_0" 51))
    None None.

(** [x = 5;] where [x] is a state variable, declared with id 7. *)
Definition stateDeclaration : VariableDeclaration.t :=
  VariableDeclaration.make 7 "0:0:0" "VariableDeclaration" false false "x" 1
    true DataLocation.Default StateVariableVisibility.Internal Mutability.Mutable
    "uint256" None
    (Some (ElementaryTypeName 8 "0:0:0" "ElementaryTypeName" "uint256" "uint256")).

Definition assignment : Assignment :=
  mkAssignment 70 "0:0:0" "uint256" "="
    (Identifier 71 "0:0:0" "Identifier" "uint256" "x" 7) (number 72 "5").

Definition locate (id : nat) : option Declaration :=
  if Nat.eqb id 7 then Some (DeclaredVariable stateDeclaration) else None.

(** The contract around [assignment]: [x] is at slot 7. *)
Definition contract : CairoContract := mkCairoContract {[ 7%nat := 7 ]}.

(** Stand-ins for the helpers that are not among the sources. *)
Definition storageWrite (decl : VariableDeclaration.t) (slot value : Expression)
  : M Expression :=
  id ← reserveId;
  mret (FunctionCall id "" "tuple()"
          (OtherExpression 0 "" "Identifier" "storageWrite") [slot; value]).

Definition writeMapping (base index : Expression) (mapping : TypeName)
    (value : Expression) : M Expression :=
  id ← reserveId;
  mret (FunctionCall id "" "tuple()"
          (OtherExpression 0 "" "Identifier" "writeMapping") [base; index; value]).

Definition typeNameFromTypeNode (t : TypeNode) : M TypeName :=
  id ← reserveId;
  mret (OtherTypeName id "" "TypeName" "").

Definition visitNothing {A} (node : A) : M unit := mret ().

(** [m[1] = 5;] and the front end's typing of a mapping in storage. *)
Definition mappingAssignment : Assignment :=
  mkAssignment 100 "0:0:0" "uint256" "="
    (IndexAccess 101 "0:0:0" "uint256"
       (Identifier 102 "0:0:0" "Identifier" "mapping(uint256 => uint256)" "m" 7)
       (Some (number 103 "1")))
    (number 104 "5").

Definition mappingType (e : Expression) : TypeNode :=
  PointerType (MappingType (IntType 256 false) (IntType 256 false))
    DataLocation.Storage.

Definition readMapping (base index : Expression) (mapping : TypeName)
  : M Expression :=
  id ← reserveId;
  mret (FunctionCall id "" "uint256"
          (OtherExpression 0 "" "Identifier" "readMapping") [base; index]).

End Sample.


(** * Properties *)

(** ** The rational engine *)

Section RationalProperties.

Import JS Rational.

Lemma new_positive n d : 0 < d → new n d = Ok (mkRationalLiteral n d).
Proof.
  intros Hd. unfold new. destruct (Z.ltb_spec 0 d); [reflexivity | lia].
Qed.

Lemma new_negative n d : d < 0 → new n d = Ok (mkRationalLiteral (- n) (- d)).
Proof.
  intros Hd. unfold new.
  destruct (Z.ltb_spec 0 d); [lia |].
  destruct (Z.ltb_spec d 0); [reflexivity | lia].
Qed.

Lemma new_zero n : new n 0 = Throw DivisionByZero.
Proof. reflexivity. Qed.

Lemma new_normalised n d r : new n d = Ok r → normalised r.
Proof.
  unfold new, normalised.
  destruct (Z.ltb_spec 0 d); [intros [= <-]; simpl; lia |].
  destruct (Z.ltb_spec d 0); [intros [= <-]; simpl; lia | discriminate].
Qed.

Lemma new_returns_iff n d : (∃ r, new n d = Ok r) ↔ d ≠ 0.
Proof.
  split.
  - intros [r Hr] ->. rewrite new_zero in Hr. discriminate.
  - intros Hd. destruct (Z.lt_total d 0) as [H | [H | H]]; [| lia |].
    + eexists. by apply new_negative.
    + eexists. by apply new_positive.
Qed.

Lemma bigint_rem_nonzero a b : b ≠ 0 → bigint_rem a b = Ok (Z.rem a b).
Proof. intros Hb. unfold bigint_rem. destruct (Z.eqb_spec b 0); [lia | done]. Qed.

Lemma bigint_div_nonzero a b : b ≠ 0 → bigint_div a b = Ok (Z.quot a b).
Proof. intros Hb. unfold bigint_div. destruct (Z.eqb_spec b 0); [lia | done]. Qed.

Lemma bigint_pow_nonneg a b : 0 ≤ b → bigint_pow a b = Ok (a ^ b).
Proof. intros Hb. unfold bigint_pow. destruct (Z.ltb_spec b 0); [lia | done]. Qed.

(** Unfolds the binds of a result in a hypothesis and splits on every test. *)
Ltac res_inv H :=
  cbv [mbind res_bind fmap res_fmap mret res_ret] in H;
  repeat case_match; simplify_eq; try discriminate.

Lemma add_normalised a b r : add a b = Ok r → normalised r.
Proof. intros H. unfold add in H. res_inv H; eauto using new_normalised. Qed.

Lemma subtract_normalised a b r : subtract a b = Ok r → normalised r.
Proof.
  intros H. unfold subtract in H. cbv [mbind res_bind] in H.
  destruct (new _ _); [| discriminate]. eauto using add_normalised.
Qed.

Lemma multiply_normalised a b r : multiply a b = Ok r → normalised r.
Proof. apply new_normalised. Qed.

Lemma divideBy_normalised a b r : divideBy a b = Ok r → normalised r.
Proof. apply new_normalised. Qed.

Lemma mod_normalised a b r : mod_ a b = Ok r → normalised r.
Proof. intros H. unfold mod_ in H. res_inv H; eauto using new_normalised. Qed.

Lemma exp_normalised a b r : exp a b = Ok (Some r) → normalised r.
Proof.
  intros H. unfold exp, toInteger in H. res_inv H; eauto using new_normalised.
Qed.

(** On normalised operands the operations that cannot divide by zero return. *)
Lemma add_returns a b : normalised a → normalised b → ∃ r, add a b = Ok r.
Proof.
  unfold normalised. intros Ha Hb. unfold add.
  rewrite !bigint_rem_nonzero, !bigint_div_nonzero by lia.
  cbv [mbind res_bind].
  repeat case_match; apply new_returns_iff; nia.
Qed.

Lemma subtract_returns a b : normalised a → normalised b → ∃ r, subtract a b = Ok r.
Proof.
  intros Ha Hb. unfold subtract.
  rewrite new_positive by exact Hb.
  apply (add_returns a (mkRationalLiteral _ _)); [exact Ha | exact Hb].
Qed.

Lemma multiply_returns a b : normalised a → normalised b → ∃ r, multiply a b = Ok r.
Proof.
  unfold normalised. intros Ha Hb. apply new_returns_iff. nia.
Qed.

Lemma divideBy_returns_iff a b :
  normalised a → (∃ r, divideBy a b = Ok r) ↔ numerator b ≠ 0.
Proof.
  unfold normalised. intros Ha. unfold divideBy. rewrite new_returns_iff. nia.
Qed.

Lemma toInteger_returns a : normalised a → ∃ k, toInteger a = Ok k.
Proof.
  unfold normalised. intros Ha. unfold toInteger.
  rewrite bigint_rem_nonzero, bigint_div_nonzero by lia.
  cbv [mbind res_bind]. case_match; eauto.
Qed.

(** C5: every constructed RationalLiteral has a strictly positive denominator:
    the constructor raises DivisionByZero on a zero denominator, negates both
    components on a negative one, and whatever the constructor, add, subtract,
    multiply, divideBy, exp or mod returns has denominator > 0. *)
Theorem denominator_positive (n d : Z) (a b r : RationalLiteral) :
  new n 0 = Throw DivisionByZero
  ∧ (d < 0 → new n d = Ok (mkRationalLiteral (- n) (- d)))
  ∧ (0 < d → new n d = Ok (mkRationalLiteral n d))
  ∧ (new n d = Ok r → 0 < denominator r)
  ∧ (add a b = Ok r → 0 < denominator r)
  ∧ (subtract a b = Ok r → 0 < denominator r)
  ∧ (multiply a b = Ok r → 0 < denominator r)
  ∧ (divideBy a b = Ok r → 0 < denominator r)
  ∧ (exp a b = Ok (Some r) → 0 < denominator r)
  ∧ (mod_ a b = Ok r → 0 < denominator r).
Proof.
  split; [apply new_zero |].
  split; [apply new_negative |].
  split; [apply new_positive |].
  split; [apply new_normalised |].
  split; [apply add_normalised |].
  split; [apply subtract_normalised |].
  split; [apply multiply_normalised |].
  split; [apply divideBy_normalised |].
  split; [apply exp_normalised | apply mod_normalised].
Qed.

Lemma denominator_positive_witness :
  new 3 (-2) = Ok (mkRationalLiteral (-3) 2)
  ∧ 0 < denominator (mkRationalLiteral 5 6).
Proof.
  pose proof (denominator_positive 3 (-2) (mkRationalLiteral 1 2)
                (mkRationalLiteral 1 3) (mkRationalLiteral 5 6))
    as (_ & Hneg & _ & _ & Hadd & _).
  split.
  - apply Hneg. lia.
  - apply Hadd. reflexivity.
Defined.

(** C10: for normalised a and b with b's numerator non-zero, a.mod(b) is the
    truncated remainder of a.numerator * b.denominator by
    b.numerator * a.denominator over a.denominator * b.denominator, so its
    numerator is zero or has the sign of a's numerator, whatever b's sign. *)
Theorem mod_truncated (a b : RationalLiteral) :
  normalised a → normalised b → numerator b ≠ 0 →
  let r := mkRationalLiteral
             (Z.rem (numerator a * denominator b) (numerator b * denominator a))
             (denominator a * denominator b) in
  mod_ a b = Ok r
  ∧ (numerator r = 0 ∨ Z.sgn (numerator r) = Z.sgn (numerator a)).
Proof.
  unfold normalised. intros Ha Hb Hn. cbv zeta. split.
  - unfold mod_. rewrite bigint_rem_nonzero by nia.
    cbv [mbind res_bind]. apply new_positive. nia.
  - simpl.
    destruct (Z.eq_dec
                (Z.rem (numerator a * denominator b) (numerator b * denominator a)) 0)
      as [Hz | Hz]; [by left | right].
    rewrite Z.rem_sign_nz by (try exact Hz; nia).
    rewrite Z.sgn_mul, (Z.sgn_pos (denominator b)) by exact Hb. lia.
Qed.

Lemma mod_truncated_witness :
  mod_ (mkRationalLiteral (-7) 2) (mkRationalLiteral (-3) 1)
    = Ok (mkRationalLiteral (-1) 2)
  ∧ (numerator (mkRationalLiteral (-1) 2) = 0
     ∨ Z.sgn (numerator (mkRationalLiteral (-1) 2)) = Z.sgn (-7)).
Proof.
  apply (mod_truncated (mkRationalLiteral (-7) 2) (mkRationalLiteral (-3) 1));
    unfold normalised; simpl; lia.
Defined.

(** C2 as stated fails: a zero base with a negative exponent returns 0/1
    instead of raising, with exponent 0 it returns 1/1, and with a positive
    exponent the denominator is raised to the power. *)
Lemma exp_zero_base_counterexample :
  toInteger (mkRationalLiteral (-1) 1) = Ok (Some (-1))
  ∧ exp (mkRationalLiteral 0 1) (mkRationalLiteral (-1) 1)
      = Ok (Some (mkRationalLiteral 0 1))
  ∧ exp (mkRationalLiteral 0 1) (mkRationalLiteral (-1) 1) ≠ Throw DivisionByZero
  ∧ exp (mkRationalLiteral 0 1) (mkRationalLiteral 0 1)
      = Ok (Some (mkRationalLiteral 1 1))
  ∧ exp (mkRationalLiteral 0 2) (mkRationalLiteral 2 1)
      = Ok (Some (mkRationalLiteral 0 4)).
Proof. repeat split; try reflexivity. discriminate. Qed.

(** C2, amended: for a normalised base with numerator 0 and an exponent whose
    integer value is k, exp raises nothing: it returns 0/1 when k < 0, 1/1
    when k = 0, and 0 over the k-th power of the base's denominator when
    k > 0. *)
Theorem exp_zero_base (a b : RationalLiteral) (k : Z) :
  normalised a → numerator a = 0 → toInteger b = Ok (Some k) →
  exp a b = Ok (Some (if k =? 0 then mkRationalLiteral 1 1
                      else if 0 <? k
                           then mkRationalLiteral 0 (denominator a ^ k)
                           else mkRationalLiteral 0 1)).
Proof.
  unfold normalised. intros Ha Hn Hk. unfold exp. rewrite Hk.
  cbv [mbind res_bind]. rewrite Hn.
  destruct (Z.eqb_spec k 0) as [-> | Hk0]; [reflexivity |].
  destruct (Z.ltb_spec 0 k) as [Hpos | Hneg].
  - rewrite !bigint_pow_nonneg by lia.
    rewrite Z.pow_0_l by lia.
    rewrite new_positive by (apply Z.pow_pos_nonneg; lia). reflexivity.
  - reflexivity.
Qed.

Lemma exp_zero_base_witness :
  exp (mkRationalLiteral 0 3) (mkRationalLiteral (-4) 2)
    = Ok (Some (mkRationalLiteral 0 1)).
Proof.
  apply (exp_zero_base (mkRationalLiteral 0 3) (mkRationalLiteral (-4) 2) (-2));
    [unfold normalised; simpl; lia | reflexivity | reflexivity].
Defined.

(** *** Digit separators *)

Lemma parseDigits_separator radix s acc :
  includes s "_" = true → parseDigits radix acc s = None.
Proof.
  revert acc. induction s as [| c s IH]; intros acc; [done |]. simpl.
  destruct (Ascii.eqb_spec c "_") as [-> | _]; [reflexivity |]. simpl. intros Hs.
  destruct (digitValue c); [| done]. destruct (_ <? radix); auto.
Qed.

Lemma parseDigits1_separator radix s :
  includes s "_" = true → parseDigits1 radix s = None.
Proof. destruct s; [done |]. apply parseDigits_separator. Qed.

Lemma includes_trimStart s : includes (trimStart s) "_" = includes s "_".
Proof.
  induction s as [| c s IH]; [done |]. simpl.
  destruct (isWhiteSpace c) eqn:Hc; [| reflexivity].
  rewrite IH. destruct (Ascii.eqb_spec c "_") as [-> | _]; [discriminate Hc | done].
Qed.

Lemma includes_trimEnd s : includes (trimEnd s) "_" = includes s "_".
Proof.
  induction s as [| c s IH]; [done |]. simpl.
  destruct (trimEnd s) as [| c' t] eqn:Ht.
  - rewrite <- IH. simpl. rewrite orb_false_r.
    destruct (isWhiteSpace c) eqn:Hc; simpl; [| by rewrite orb_false_r].
    destruct (Ascii.eqb_spec c "_") as [-> | _]; [discriminate Hc | done].
  - simpl. rewrite <- IH. reflexivity.
Qed.

(** BigInt accepts no numeric separator. *)
Lemma BigInt_separator s : includes s "_" = true → BigInt s = Throw SyntaxError.
Proof.
  intros Hs. unfold BigInt, StringToBigInt.
  rewrite <- includes_trimStart, <- includes_trimEnd in Hs.
  destruct (trimEnd (trimStart s)) as [| c rest]; [discriminate Hs |].
  simpl in Hs.
  destruct (Ascii.eqb_spec c "+") as [-> | _].
  { by rewrite (parseDigits1_separator _ _ Hs). }
  destruct (Ascii.eqb_spec c "-") as [-> | _].
  { by rewrite (parseDigits1_separator _ _ Hs). }
  assert (Hall : parseDigits1 10 (String c rest) = None)
    by (by apply parseDigits1_separator).
  destruct rest as [| p digits]; [by rewrite Hall |].
  destruct (Ascii.eqb_spec c "0") as [-> | _]; cbn [andb]; [| by rewrite Hall].
  simpl in Hs.
  destruct (Ascii.eqb_spec p "x") as [-> | _];
    [cbn [orb]; by rewrite (parseDigits1_separator _ _ Hs) |].
  destruct (Ascii.eqb_spec p "X") as [-> | _];
    [cbn [orb]; by rewrite (parseDigits1_separator _ _ Hs) |].
  destruct (Ascii.eqb_spec p "o") as [-> | _];
    [cbn [orb]; by rewrite (parseDigits1_separator _ _ Hs) |].
  destruct (Ascii.eqb_spec p "O") as [-> | _];
    [cbn [orb]; by rewrite (parseDigits1_separator _ _ Hs) |].
  destruct (Ascii.eqb_spec p "b") as [-> | _];
    [cbn [orb]; by rewrite (parseDigits1_separator _ _ Hs) |].
  destruct (Ascii.eqb_spec p "B") as [-> | _];
    [cbn [orb]; by rewrite (parseDigits1_separator _ _ Hs) |].
  cbn [orb]. by rewrite Hall.
Qed.

(** An integer literal written with a separator is never parsed. *)
Lemma intToLiteral_separator value :
  includes value "_" = true → intToLiteral value = Throw SyntaxError.
Proof. intros H. unfold intToLiteral. by rewrite (BigInt_separator _ H). Qed.

Lemma stringToLiteralValue_integer_separator value :
  includes value "_" = true →
  includes (removeChar "_" value) "e" = false →
  includes (removeChar "_" value) "." = false →
  stringToLiteralValue value = Throw SyntaxError.
Proof.
  intros Hsep He Hdot. unfold stringToLiteralValue. rewrite He, Hdot.
  destruct (startsWith _ _); by apply intToLiteral_separator.
Qed.

(** The scenarios of the specification that need no separator. *)
Example parse_scientific :
  stringToLiteralValue "1.5e2" = Ok (mkRationalLiteral 1500 10)
  ∧ toInteger (mkRationalLiteral 1500 10) = Ok (Some 150).
Proof. split; reflexivity. Qed.

(** C1: the parser computes the separator-free string only to choose the
    branch and hands the original string to BigInt, which accepts no
    separator: "1_000" is a syntax error; "0x2a" is 42/1. *)
Theorem stringToLiteralValue_separator :
  stringToLiteralValue "1_000" = Throw SyntaxError
  ∧ stringToLiteralValue "0x2a" = Ok (mkRationalLiteral 42 1)
  ∧ stringToLiteralValue "1000" = Ok (mkRationalLiteral 1000 1).
Proof. repeat split; reflexivity. Qed.

(** *** Printing, then parsing again *)

Lemma append_cons c s1 s2 : String c s1 +:+ s2 = String c (s1 +:+ s2).
Proof. reflexivity. Qed.

Lemma allChars_append P s1 s2 :
  allChars P (s1 +:+ s2) = allChars P s1 && allChars P s2.
Proof.
  induction s1 as [| c s1 IH]; [reflexivity |].
  rewrite append_cons. simpl. rewrite IH. by rewrite andb_assoc.
Qed.

Lemma allChars_impl (P Q : ascii → bool) s :
  (∀ c, P c = true → Q c = true) → allChars P s = true → allChars Q s = true.
Proof.
  intros HPQ. induction s as [| c s IH]; [done |]. simpl.
  rewrite !andb_true_iff. intros [Hc Hs]. auto.
Qed.

Lemma includes_append s1 s2 c :
  includes (s1 +:+ s2) c = includes s1 c || includes s2 c.
Proof.
  induction s1 as [| c1 s1 IH]; [reflexivity |].
  rewrite append_cons. simpl. rewrite IH. by rewrite orb_assoc.
Qed.

Lemma includes_allChars P s c :
  P c = false → allChars P s = true → includes s c = false.
Proof.
  intros Hc. induction s as [| c' s IH]; [done |]. simpl.
  rewrite andb_true_iff. intros [Hc' Hs].
  destruct (Ascii.eqb_spec c' c) as [-> | _]; [congruence | auto].
Qed.

Lemma uint_digits d : allChars isDigit (NilEmpty.string_of_uint d) = true.
Proof. induction d; simpl; auto. Qed.

Lemma bigint_toString_printed n : allChars printedChar (bigint_toString n) = true.
Proof.
  assert (Huint : ∀ d, allChars printedChar (NilZero.string_of_uint d) = true).
  { intros d. apply (allChars_impl isDigit).
    - intros c Hc. unfold printedChar. by rewrite Hc.
    - destruct d; try apply uint_digits. reflexivity. }
  unfold bigint_toString. destruct (Z.to_int n); simpl; [apply Huint |].
  apply Huint.
Qed.

Lemma toString_printed r : allChars printedChar (toString r) = true.
Proof.
  unfold toString. rewrite !allChars_append, !bigint_toString_printed. reflexivity.
Qed.

Lemma toString_includes_bar r : includes (toString r) "/" = true.
Proof.
  unfold toString. rewrite !includes_append. simpl. by rewrite orb_true_r.
Qed.

(** What a printed character is not. *)
Lemma printedChar_cases c :
  printedChar c = true →
  isWhiteSpace c = false
  ∧ Ascii.eqb c "_" = false ∧ Ascii.eqb c "+" = false
  ∧ Ascii.eqb c "e" = false ∧ Ascii.eqb c "." = false
  ∧ Ascii.eqb c "x" = false ∧ Ascii.eqb c "X" = false
  ∧ Ascii.eqb c "o" = false ∧ Ascii.eqb c "O" = false
  ∧ Ascii.eqb c "b" = false ∧ Ascii.eqb c "B" = false.
Proof.
  destruct c as [[] [] [] [] [] [] [] []]; vm_compute; intros H;
    first [discriminate H | repeat split].
Qed.

Lemma removeChar_printed s : allChars printedChar s = true → removeChar "_" s = s.
Proof.
  induction s as [| c s IH]; [done |]. simpl.
  rewrite andb_true_iff. intros [Hc Hs].
  destruct (printedChar_cases c Hc) as (_ & -> & _). by rewrite IH.
Qed.

Lemma prefix_cons a s1 b s2 :
  String.prefix (String a s1) (String b s2)
  = if ascii_dec a b then String.prefix s1 s2 else false.
Proof. reflexivity. Qed.

Lemma startsWith_0x_printed s : allChars printedChar s = true → startsWith s "0x" = false.
Proof.
  unfold startsWith. destruct s as [| c [| p s]]; [done | |].
  - intros _. rewrite prefix_cons. by destruct (ascii_dec _ _).
  - cbn [allChars]. rewrite !andb_true_iff. intros (_ & Hp & _).
    destruct (printedChar_cases p Hp) as (_ & _ & _ & _ & _ & Hx & _).
    rewrite !prefix_cons.
    destruct (ascii_dec "0" c); [| done].
    destruct (ascii_dec "x" p) as [<- | ]; [discriminate Hx | done].
Qed.

Lemma trimStart_printed s : allChars printedChar s = true → trimStart s = s.
Proof.
  destruct s as [| c s]; [done |]. simpl.
  rewrite andb_true_iff. intros [Hc _].
  by destruct (printedChar_cases c Hc) as (-> & _).
Qed.

Lemma trimEnd_printed s : allChars printedChar s = true → trimEnd s = s.
Proof.
  induction s as [| c s IH]; [done |]. simpl.
  rewrite andb_true_iff. intros [Hc Hs]. rewrite (IH Hs).
  destruct (printedChar_cases c Hc) as (-> & _). by destruct s.
Qed.

Lemma parseDigits_bar radix s acc :
  includes s "/" = true → parseDigits radix acc s = None.
Proof.
  revert acc. induction s as [| c s IH]; intros acc; [done |]. simpl.
  destruct (Ascii.eqb_spec c "/") as [-> | _]; [reflexivity |]. simpl. intros Hs.
  destruct (digitValue c); [| done]. destruct (_ <? radix); auto.
Qed.

Lemma parseDigits1_bar radix s : includes s "/" = true → parseDigits1 radix s = None.
Proof. destruct s; [done |]. apply parseDigits_bar. Qed.

(** BigInt has no syntax for a printed rational. *)
Lemma BigInt_printed s :
  allChars printedChar s = true → includes s "/" = true → BigInt s = Throw SyntaxError.
Proof.
  intros Hs Hbar. unfold BigInt, StringToBigInt.
  rewrite (trimStart_printed s Hs), (trimEnd_printed s Hs).
  destruct s as [| c rest]; [discriminate Hbar |].
  pose proof Hs as Hs'. simpl in Hs'. apply andb_true_iff in Hs' as [Hc Hrest].
  destruct (printedChar_cases c Hc) as (_ & _ & -> & _).
  destruct (Ascii.eqb_spec c "-") as [-> | Hminus].
  { simpl in Hbar. by rewrite (parseDigits1_bar _ _ Hbar). }
  destruct rest as [| p digits].
  { by rewrite (parseDigits1_bar _ _ Hbar). }
  simpl in Hrest. apply andb_true_iff in Hrest as [Hp _].
  destruct (printedChar_cases p Hp)
    as (_ & _ & _ & _ & _ & -> & -> & -> & -> & -> & ->).
  rewrite !andb_false_r. by rewrite (parseDigits1_bar _ _ Hbar).
Qed.

Lemma stringToLiteralValue_toString r :
  stringToLiteralValue (toString r) = Throw SyntaxError.
Proof.
  pose proof (toString_printed r) as Hs.
  unfold stringToLiteralValue.
  rewrite (removeChar_printed _ Hs), (startsWith_0x_printed _ Hs).
  rewrite (includes_allChars printedChar _ "e" eq_refl Hs).
  rewrite (includes_allChars printedChar _ "." eq_refl Hs).
  unfold intToLiteral.
  by rewrite (BigInt_printed _ Hs (toString_includes_bar r)).
Qed.

(** C4 as stated fails: "0x2a" parses to 42/1, which prints as "42/1", and
    the parser rejects that string. *)
Lemma toString_roundtrip_counterexample :
  stringToLiteralValue "0x2a" = Ok (mkRationalLiteral 42 1)
  ∧ toString (mkRationalLiteral 42 1) = "42/1"
  ∧ stringToLiteralValue "42/1" = Throw SyntaxError.
Proof. repeat split; reflexivity. Qed.

(** C4, amended: for every literal string the parser accepts, the printed form
    of the value is the decimal numerator, a bar and the decimal denominator,
    and the parser does not read it back: it raises a syntax error on it. *)
Theorem toString_not_parsed (s : string) (r : RationalLiteral) :
  stringToLiteralValue s = Ok r →
  toString r = bigint_toString (numerator r) +:+ "/" +:+ bigint_toString (denominator r)
  ∧ stringToLiteralValue (toString r) = Throw SyntaxError.
Proof. intros _. split; [reflexivity | apply stringToLiteralValue_toString]. Qed.

Lemma toString_not_parsed_witness :
  toString (mkRationalLiteral 1500 10) = "1500/10"
  ∧ stringToLiteralValue (toString (mkRationalLiteral 1500 10)) = Throw SyntaxError.
Proof.
  apply (toString_not_parsed "1.5e2" (mkRationalLiteral 1500 10)). reflexivity.
Defined.

End RationalProperties.

(** ** The type translator *)

Section TypeWriterProperties.

Import TypeWriter.

(** C9: Int types wider than 251 bits translate to "Uint256" and the others
    to "felt"; an array translates to its element's translation followed by
    "*"; a pointer translates as its pointee; with the four listed instances. *)
Theorem cairoType_rules (canonicalMangler : string → string)
    (typeNodeToString : TypeNode → string) :
  let T := cairoType canonicalMangler typeNodeToString in
  (∀ nBits signed, 251 < nBits → T (IntType nBits signed) = Ok "Uint256")
  ∧ (∀ nBits signed, nBits ≤ 251 → T (IntType nBits signed) = Ok "felt")
  ∧ (∀ t size s, T t = Ok s → T (ArrayType t size) = Ok (s +:+ "*"))
  ∧ (∀ t size e, T t = Throw e → T (ArrayType t size) = Throw e)
  ∧ (∀ p location, T (PointerType p location) = T p)
  ∧ (∀ signed, T (IntType 256 signed) = Ok "Uint256")
  ∧ (∀ signed, T (IntType 8 signed) = Ok "felt")
  ∧ (∀ signed size, T (ArrayType (IntType 8 signed) size) = Ok "felt*")
  ∧ (∀ size location,
       T (PointerType (ArrayType BoolType size) location) = Ok "felt*").
Proof.
  cbv zeta. repeat split; try reflexivity.
  - intros nBits signed H. simpl. destruct (Z.ltb_spec 251 nBits); [done | lia].
  - intros nBits signed H. simpl. destruct (Z.ltb_spec 251 nBits); [lia | done].
  - intros t size s H. simpl. by rewrite H.
  - intros t size e H. simpl. by rewrite H.
Qed.

Lemma cairoType_rules_witness :
  cairoType id (fun _ => "key") (IntType 252 true) = Ok "Uint256"
  ∧ cairoType id (fun _ => "key") (ArrayType (ArrayType StringType None) (Some 3))
    = Ok "felt**".
Proof.
  pose proof (cairoType_rules id (fun _ => "key")) as (Hwide & _ & Harray & _).
  split.
  - apply Hwide. lia.
  - apply (Harray (ArrayType StringType None) (Some 3) "felt*"). reflexivity.
Defined.

End TypeWriterProperties.

(** ** The declaration splitter *)

Section SplitterProperties.

Import VariableDeclarationExpressionSplitter.

Variable getNodeType : Expression → TypeNode.
Variable pp : TypeNode → string.

Lemma M_bind_ok {A B} (m : M A) (f : A → M B) w a w' :
  m w = Ok (a, w') → (m ≫= f) w = f a w'.
Proof. intros H. unfold mbind, M_bind. by rewrite H. Qed.

Lemma M_bind_throw {A B} (m : M A) (f : A → M B) w e :
  m w = Throw e → (m ≫= f) w = Throw e.
Proof. intros H. unfold mbind, M_bind. by rewrite H. Qed.

Lemma mapWithIndex_cons {A B} (f : A → nat → M B) index x l w :
  mapWithIndex f index (x :: l) w =
  match f x index w with
  | Ok (y, w1) =>
      match mapWithIndex f (S index) l w1 with
      | Ok (ys, w2) => Ok (y :: ys, w2)
      | Throw e => Throw e
      end
  | Throw e => Throw e
  end.
Proof.
  simpl. unfold mbind, M_bind. destruct (f x index w) as [[y w1] | e]; [| done].
  by destruct (mapWithIndex f (S index) l w1) as [[ys w2] | e].
Qed.

Lemma filterNotNull_cons {A} (x : option A) l :
  filterNotNull (x :: l) = option_list x ++ filterNotNull l.
Proof. by destruct x. Qed.

(** One slot of a tuple initialiser. *)
Lemma splitSlot_returns node src comps L R tupleIndex w :
  comps !! tupleIndex = Some R →
  (∀ declId, L = Some declId → is_Some (findDeclaration (VDS.vDeclarations node) declId)) →
  ∃ slot w',
    splitSlot node src comps L tupleIndex w = Ok (slot, w')
    ∧ shape <$> option_list slot = emittedBy (VDS.vDeclarations node) L R
    ∧ (slot = None ↔ L = None ∧ R = None)
    ∧ (∀ s, slot = Some s →
         Statement_documentation s
           = (if Nat.eqb tupleIndex 0 then VDS.documentation node else None)
         ∧ Statement_raw s = (if Nat.eqb tupleIndex 0 then VDS.raw node else None)).
Proof.
  intros HR Hresolve. unfold splitSlot. rewrite HR.
  destruct L as [declId |].
  - destruct (Hresolve declId eq_refl) as [decl Hdecl]. rewrite Hdecl.
    eexists _, _. split; [reflexivity |]. simpl. rewrite Hdecl.
    split; [reflexivity |]. split; [| by intros s [= <-]].
    split; [discriminate | intros [? _]; discriminate].
  - destruct R as [component |].
    + eexists _, _. split; [reflexivity |]. simpl.
      split; [reflexivity |]. split; [| by intros s [= <-]].
      split; [discriminate | intros [_ ?]; discriminate].
    + eexists _, _. split; [reflexivity |]. simpl.
      split; [reflexivity |]. split; [done | discriminate].
Qed.

(** The slots from [index] on. *)
Lemma mapWithIndex_splitSlot node src comps ids :
  ∀ index w,
    Forall (fun L => ∀ declId, L = Some declId →
              is_Some (findDeclaration (VDS.vDeclarations node) declId)) ids →
    length (drop index comps) = length ids →
    ∃ slots w',
      mapWithIndex (splitSlot node src comps) index ids w = Ok (slots, w')
      ∧ shape <$> filterNotNull slots
        = concat (zip_with (emittedBy (VDS.vDeclarations node)) ids (drop index comps))
      ∧ ((1 ≤ index)%nat → Forall unannotated (filterNotNull slots)).
Proof.
  induction ids as [| L ids IH]; intros index w Hresolve Hlength.
  - eexists [], w. split; [reflexivity |]. split; [reflexivity | by constructor].
  - destruct (drop index comps) as [| R rest] eqn:Hdrop; [discriminate Hlength |].
    assert (HR : comps !! index = Some R).
    { rewrite <- (Nat.add_0_r index), <- lookup_drop, Hdrop. reflexivity. }
    assert (Hrest : drop (S index) comps = rest).
    { rewrite (drop_S _ _ _ HR) in Hdrop. congruence. }
    apply Forall_cons in Hresolve as [HL Hresolve].
    destruct (splitSlot_returns node src comps L R index w HR HL)
      as (slot & w1 & Hslot & Hshape & _ & Hannotations).
    destruct (IH (S index) w1 Hresolve) as (slots & w2 & Hslots & Hshapes & Hrestdoc).
    { rewrite Hrest. simpl in Hlength. lia. }
    exists (slot :: slots), w2.
    rewrite mapWithIndex_cons, Hslot, Hslots.
    split; [reflexivity |].
    rewrite filterNotNull_cons, fmap_app, Hshape, Hshapes, Hrest.
    split; [reflexivity |].
    intros Hindex. apply Forall_app. split; [| apply Hrestdoc; lia].
    destruct slot as [s |]; [| by constructor].
    destruct (Hannotations s eq_refl) as [Hdoc Hraw].
    destruct index; [lia |]. by repeat constructor.
Qed.

Lemma more_than_one_declaration (node : VDS.t) :
  (1 < length (VDS.vDeclarations node))%nat →
  Nat.eqb (length (VDS.vDeclarations node)) 1 = false.
Proof. intros H. apply Nat.eqb_neq. lia. Qed.

(** C6: for a statement with more than one declaration and a tuple
    initialiser of the same arity whose assignment ids all have a declaration,
    splitDeclaration returns, in slot order, nothing for a slot with null id
    and null component, an expression statement of the component for a slot
    with null id only, and a declaration statement binding the one
    declaration (with the component, if any, as initialiser) otherwise. *)
Theorem splitDeclaration_tuple (node : VDS.t) (id : nat) (src typeString : string)
    (isInlineArray : bool) (vOriginalComponents : list (option Expression))
    (w : World) :
  (1 < length (VDS.vDeclarations node))%nat →
  VDS.vInitialValue node
    = Some (TupleExpression id src typeString isInlineArray vOriginalComponents) →
  length vOriginalComponents = length (VDS.assignments node) →
  declarationsResolve node →
  ∃ statements w',
    splitDeclaration getNodeType pp node w = Ok (statements, w')
    ∧ shape <$> statements
      = concat (zip_with (emittedBy (VDS.vDeclarations node))
                  (VDS.assignments node) vOriginalComponents).
Proof.
  intros Hmany Hinitial Harity Hresolve.
  destruct (mapWithIndex_splitSlot node src vOriginalComponents
              (VDS.assignments node) 0 w Hresolve Harity)
    as (slots & w' & Hslots & Hshape & _).
  exists (filterNotNull slots), w'. split; [| exact Hshape].
  unfold splitDeclaration.
  rewrite (more_than_one_declaration node Hmany), Hinitial.
  by rewrite (M_bind_ok _ _ _ _ _ Hslots).
Qed.

(** C7, amended: when slot 0 emits a statement (its assignment id or its
    component is non-null), that statement is the first one emitted, it
    carries the documentation and raw annotations of the original statement,
    and no other emitted statement carries them. *)
Theorem splitDeclaration_annotations (node : VDS.t) (id : nat)
    (src typeString : string) (isInlineArray : bool)
    (vOriginalComponents : list (option Expression)) (w : World) :
  (1 < length (VDS.vDeclarations node))%nat →
  VDS.vInitialValue node
    = Some (TupleExpression id src typeString isInlineArray vOriginalComponents) →
  length vOriginalComponents = length (VDS.assignments node) →
  declarationsResolve node →
  (∃ declId, VDS.assignments node !! 0%nat = Some (Some declId))
  ∨ (∃ component, vOriginalComponents !! 0%nat = Some (Some component)) →
  ∃ first rest w',
    splitDeclaration getNodeType pp node w = Ok (first :: rest, w')
    ∧ Statement_documentation first = VDS.documentation node
    ∧ Statement_raw first = VDS.raw node
    ∧ Forall unannotated rest.
Proof.
  intros Hmany Hinitial Harity Hresolve Hemits.
  unfold splitDeclaration.
  rewrite (more_than_one_declaration node Hmany), Hinitial.
  unfold declarationsResolve in Hresolve.
  destruct (VDS.assignments node) as [| L ids].
  { destruct vOriginalComponents; [| discriminate Harity].
    destruct Hemits as [[? Hslot] | [? Hslot]]; discriminate Hslot. }
  destruct vOriginalComponents as [| R rest]; [discriminate Harity |].
  apply Forall_cons in Hresolve as [HL Hresolve].
  destruct (splitSlot_returns node src (R :: rest) L R 0 w eq_refl HL)
    as (slot & w1 & Hslot & _ & Hnone & Hannotations).
  destruct (mapWithIndex_splitSlot node src (R :: rest) ids 1 w1 Hresolve)
    as (slots & w2 & Hslots & _ & Hunannotated).
  { simpl in Harity |- *. rewrite drop_0. lia. }
  specialize (Hunannotated (Nat.le_refl 1)).
  rewrite (M_bind_ok _ _ _ (slot :: slots) w2)
    by (by rewrite mapWithIndex_cons, Hslot, Hslots).
  destruct slot as [first |].
  - exists first, (filterNotNull slots), w2.
    split; [reflexivity |].
    destruct (Hannotations first eq_refl) as [Hdoc Hraw]. by repeat split.
  - destruct (proj1 Hnone eq_refl) as [-> ->].
    destruct Hemits as [[? Hemit] | [? Hemit]]; discriminate Hemit.
Qed.

(** C8, amended: with more than one declaration, an initialiser that is
    neither a function call nor a tuple expression makes the splitter fail
    with TranspileFailed; a function call whose type is not a tuple leaves the
    statement as it is; a missing initialiser is an assertion failure. *)
Theorem splitDeclaration_other_initialiser (node : VDS.t) (w : World) :
  (1 < length (VDS.vDeclarations node))%nat →
  (∀ initialValue,
     VDS.vInitialValue node = Some initialValue →
     isFunctionCall initialValue = false → isTupleExpression initialValue = false →
     splitDeclaration getNodeType pp node w = Throw TranspileFailedError)
  ∧ (∀ initialValue,
       VDS.vInitialValue node = Some initialValue →
       isFunctionCall initialValue = true →
       isTupleType (getNodeType initialValue) = false →
       splitDeclaration getNodeType pp node w = Ok ([DeclarationStatement node], w))
  ∧ (VDS.vInitialValue node = None →
     splitDeclaration getNodeType pp node w = Throw AssertionError).
Proof.
  intros Hmany. unfold splitDeclaration.
  rewrite (more_than_one_declaration node Hmany).
  split; [| split].
  - intros initialValue -> Hcall Htuple. by destruct initialValue.
  - intros initialValue -> Hcall Htype.
    destruct initialValue; try discriminate Hcall.
    by destruct (getNodeType _).
  - by intros ->.
Qed.

End SplitterProperties.

Section SplitterInstances.

Import VariableDeclarationExpressionSplitter.

Lemma splitDeclaration_tuple_witness :
  ∃ statements w',
    splitDeclaration Sample.callType (fun _ => "uint256") Sample.tupleStatement
      Sample.world = Ok (statements, w')
    ∧ shape <$> statements
      = [EmittedDeclaration [Some 11%nat] [Sample.declaration 11 "a"]
           (Some (Sample.number 42 "1"));
         EmittedExpression (Some (Sample.number 43 "7"));
         EmittedDeclaration [Some 12%nat] [Sample.declaration 12 "c"]
           (Some (Sample.number 44 "2"))].
Proof.
  apply (splitDeclaration_tuple Sample.callType (fun _ => "uint256")
           Sample.tupleStatement 41 "1:1:1" "tuple()" false
           [Some (Sample.number 42 "1"); Some (Sample.number 43 "7");
            Some (Sample.number 44 "2")] Sample.world).
  - simpl. lia.
  - reflexivity.
  - reflexivity.
  - repeat constructor; intros declId [= <-]; by eexists.
Defined.

(** C7 as stated fails: when slot 0 has neither id nor component nothing is
    emitted for it, and the first statement emitted, which comes from slot 1,
    carries neither the documentation nor the raw annotation of the node. *)
Lemma splitDeclaration_annotations_counterexample :
  VDS.documentation Sample.gapStatement = Some "doc"
  ∧ VDS.raw Sample.gapStatement = Some "raw"
  ∧ ∃ first second w',
      splitDeclaration Sample.callType (fun _ => "uint256") Sample.gapStatement
        Sample.world = Ok ([first; second], w')
      ∧ shape first
        = EmittedDeclaration [Some 11%nat] [Sample.declaration 11 "b"]
            (Some (Sample.number 32 "1"))
      ∧ Statement_documentation first = None
      ∧ Statement_raw first = None
      ∧ Statement_documentation second = None
      ∧ Statement_raw second = None.
Proof.
  split; [reflexivity |]. split; [reflexivity |].
  eexists _, _, _. split; [reflexivity |]. repeat split.
Qed.

Lemma splitDeclaration_annotations_witness :
  ∃ first rest w',
    splitDeclaration Sample.callType (fun _ => "uint256") Sample.tupleStatement
      Sample.world = Ok (first :: rest, w')
    ∧ Statement_documentation first = VDS.documentation Sample.tupleStatement
    ∧ Statement_raw first = VDS.raw Sample.tupleStatement
    ∧ Forall unannotated rest.
Proof.
  apply (splitDeclaration_annotations Sample.callType (fun _ => "uint256")
           Sample.tupleStatement 41 "1:1:1" "tuple()" false
           [Some (Sample.number 42 "1"); Some (Sample.number 43 "7");
            Some (Sample.number 44 "2")] Sample.world).
  - simpl. lia.
  - reflexivity.
  - reflexivity.
  - repeat constructor; intros declId [= <-]; by eexists.
  - left. by exists 11%nat.
Defined.

(** C8 as stated fails: with two declarations and a function call whose type
    is not a tuple as initialiser, the splitter returns the statement as it
    is and raises nothing. *)
Lemma splitDeclaration_other_initialiser_counterexample :
  length (VDS.vDeclarations Sample.callStatement) = 2%nat
  ∧ (∃ call, VDS.vInitialValue Sample.callStatement = Some call
             ∧ isFunctionCall call = true
             ∧ Sample.callType call = IntType 256 false)
  ∧ splitDeclaration Sample.callType (fun _ => "uint256") Sample.callStatement
      Sample.world
    = Ok ([DeclarationStatement Sample.callStatement], Sample.world)
  ∧ splitDeclaration Sample.callType (fun _ => "uint256") Sample.callStatement
      Sample.world
    ≠ Throw TranspileFailedError.
Proof.
  split; [reflexivity |]. split; [by eexists |]. split; [reflexivity | discriminate].
Qed.

Lemma splitDeclaration_other_initialiser_witness :
  splitDeclaration Sample.callType (fun _ => "uint256") Sample.otherStatement
    Sample.world = Throw TranspileFailedError.
Proof.
  destruct (splitDeclaration_other_initialiser Sample.callType (fun _ => "uint256")
              Sample.otherStatement Sample.world) as (Hother & _).
  - simpl. lia.
  - apply (Hother (Sample.number 61 "5")); reflexivity.
Defined.

End SplitterInstances.

(** ** The storage variable access rewriter *)

Section RewriterProperties.

Import StorageVariableAccessRewriter.

Variable locate : nat → option Declaration.
Variable getClosestParentByType_CairoContract : Assignment → option CairoContract.
Variable getNodeType : Expression → TypeNode.
Variable pp : TypeNode → string.
Variable toHexString : string → string.
Variable typeNameFromTypeNode : TypeNode → M TypeName.
Variable storageWrite : VariableDeclaration.t → Expression → Expression → M Expression.
Variable writeMapping : Expression → Expression → TypeName → Expression → M Expression.
Variable dispatchVisit : Expression → M unit.
Variable commonVisit : Assignment → M unit.

Local Abbreviation visit :=
  (visitAssignment locate getClosestParentByType_CairoContract getNodeType pp
     toHexString typeNameFromTypeNode storageWrite writeMapping dispatchVisit
     commonVisit).

(** C3: an assignment whose left-hand side is an identifier of a state
    variable allocated at [slot] reserves an id for a Number literal whose
    value text is the slot, asks storageWrite for the call on the
    declaration, that literal and the right-hand side, replaces the
    assignment by the call and then visits the right-hand side only; without
    an allocation it fails with an assertion error. *)
Theorem visitAssignment_state_variable (node : Assignment) (id : nat)
    (src type typeString name : string) (referencedDeclaration : nat)
    (decl : VariableDeclaration.t) (w : World) :
  vLeftHandSide node = Identifier id src type typeString name referencedDeclaration →
  locate referencedDeclaration = Some (DeclaredVariable decl) →
  VD.stateVariable decl = true →
  (∀ contract slot,
     getClosestParentByType_CairoContract node = Some contract →
     storageAllocations contract !! VD.id decl = Some slot →
     visit node w =
       match storageWrite decl
               (Literal (S (lastId w)) "" "Literal"
                  ("int_const " +:+ number_toString slot) LiteralKind.Number
                  (toHexString (number_toString slot)) (number_toString slot))
               (vRightHandSide node)
               (mkWorld (S (lastId w)) (lastUsedConstantId w) (events w)) with
       | Ok (call, w1) =>
           dispatchVisit (vRightHandSide node)
             (mkWorld (lastId w1) (lastUsedConstantId w1)
                (events w1 ++ [replaceNode (AssignmentNode node) (ExpressionNode call)]))
       | Throw e => Throw e
       end)
  ∧ (getClosestParentByType_CairoContract node = None
     ∨ (∃ contract, getClosestParentByType_CairoContract node = Some contract
                    ∧ storageAllocations contract !! VD.id decl = None) →
     visit node w = Throw AssertionError).
Proof.
  intros Hlhs Hdecl Hstate. unfold visitAssignment.
  rewrite Hlhs, Hdecl, Hstate. unfold allocationOf. split.
  - intros contract slot -> Hslot. simpl. rewrite Hslot.
    unfold mbind, M_bind, reserveId, emit, slotLiteral.
    destruct (storageWrite _ _ _ _) as [[call w1] | e]; reflexivity.
  - intros [-> | (contract & -> & Hnone)]; [reflexivity |].
    simpl. by rewrite Hnone.
Qed.

End RewriterProperties.

Lemma visitAssignment_state_variable_witness :
  StorageVariableAccessRewriter.visitAssignment Sample.locate
    (fun _ => Some Sample.contract) Sample.callType (fun _ => "uint256")
    (fun s => s) Sample.typeNameFromTypeNode Sample.storageWrite
    Sample.writeMapping Sample.visitNothing Sample.visitNothing
    Sample.assignment Sample.world
  = Ok ((), mkWorld 52 0
              [replaceNode (AssignmentNode Sample.assignment)
                 (ExpressionNode
                    (FunctionCall 52 "" "tuple()"
                       (OtherExpression 0 "" "Identifier" "storageWrite")
                       [Literal 51 "" "Literal" "int_const 7" LiteralKind.Number
                          "7" "7";
                        Sample.number 72 "5"]))]).
Proof.
  destruct (visitAssignment_state_variable Sample.locate
              (fun _ => Some Sample.contract) Sample.callType (fun _ => "uint256")
              (fun s => s) Sample.typeNameFromTypeNode Sample.storageWrite
              Sample.writeMapping Sample.visitNothing Sample.visitNothing
              Sample.assignment 71 "0:0:0" "Identifier" "uint256" "x" 7
              Sample.stateDeclaration Sample.world)
    as [Hwrite _]; [reflexivity | reflexivity | reflexivity |].
  rewrite (Hwrite Sample.contract 7); reflexivity.
Defined.

(** * Further properties *)

(** ** Arithmetic of the rational engine *)

Section RationalArithmetic.

Import JS Rational.

Lemma rem_zero_exact a b : b ≠ 0 → Z.rem a b = 0 → a = b * (a ÷ b).
Proof. intros Hb Hr. pose proof (Z.quot_rem a b Hb). lia. Qed.

Lemma exact_quot n a b : b ≠ 0 → Z.rem a b = 0 → (n * a) ÷ b = n * (a ÷ b).
Proof.
  intros Hb Hr. pose proof (rem_zero_exact a b Hb Hr) as Ha.
  rewrite Ha at 1. replace (n * (b * (a ÷ b))) with (n * (a ÷ b) * b) by ring.
  by rewrite Z.quot_mul.
Qed.

Lemma rem_zero_le a b : 0 < a → 0 < b → Z.rem a b = 0 → b ≤ a.
Proof.
  intros Ha Hb Hr. destruct (Z.le_gt_cases b a) as [| Hlt]; [done |].
  rewrite Z.rem_small in Hr by lia. lia.
Qed.

(** Whatever branch add takes, its result stands for the sum. *)
Lemma add_sum (a b r : RationalLiteral) :
  normalised a → normalised b → add a b = Ok r →
  numerator r * (denominator a * denominator b)
  = (numerator a * denominator b + numerator b * denominator a) * denominator r.
Proof.
  unfold normalised. intros Ha Hb Hr.
  unfold add in Hr.
  rewrite !bigint_rem_nonzero, !bigint_div_nonzero in Hr by lia.
  cbv [mbind res_bind] in Hr.
  destruct (Z.eqb_spec (denominator a) (denominator b)) as [Heq | Hne].
  { rewrite new_positive in Hr by exact Ha. injection Hr as <-. simpl.
    rewrite Heq. ring. }
  destruct (Z.eqb_spec (Z.rem (denominator a) (denominator b)) 0) as [Hab | Hab'].
  { rewrite new_positive in Hr by exact Ha. injection Hr as <-. simpl.
    rewrite exact_quot by (try exact Hab; lia).
    pose proof (rem_zero_exact (denominator a) (denominator b) ltac:(lia) Hab)
      as Hexact.
    set (c := denominator a ÷ denominator b) in *. rewrite Hexact. ring. }
  destruct (Z.eqb_spec (Z.rem (denominator b) (denominator a)) 0) as [Hba | Hba'].
  { rewrite new_positive in Hr by exact Hb. injection Hr as <-. simpl.
    rewrite exact_quot by (try exact Hba; lia).
    pose proof (rem_zero_exact (denominator b) (denominator a) ltac:(lia) Hba)
      as Hexact.
    set (c := denominator b ÷ denominator a) in *. rewrite Hexact. ring. }
  rewrite new_positive in Hr by (apply Z.mul_pos_pos; lia).
  injection Hr as <-. simpl. ring.
Qed.

(** X1: on normalised operands add returns, and in each of its four
    branches the result stands for the sum of the operands. *)
Theorem add_value (a b : RationalLiteral) :
  normalised a → normalised b →
  ∃ r, add a b = Ok r
       ∧ normalised r
       ∧ numerator r * (denominator a * denominator b)
         = (numerator a * denominator b + numerator b * denominator a)
           * denominator r.
Proof.
  intros Ha Hb. destruct (add_returns a b Ha Hb) as [r Hr]. exists r.
  split; [exact Hr |]. split; [by apply (add_normalised a b) |].
  by apply add_sum.
Qed.

Lemma add_value_witness :
  ∃ r, add (mkRationalLiteral 5 6) (mkRationalLiteral 2 3) = Ok r
       ∧ normalised r
       ∧ numerator r * (6 * 3) = (5 * 3 + 2 * 6) * denominator r.
Proof.
  apply (add_value (mkRationalLiteral 5 6) (mkRationalLiteral 2 3));
    unfold normalised; simpl; lia.
Defined.

(** X2: on normalised operands add is commutative: both orders return the
    same numerator and the same denominator. *)
Theorem add_comm (a b : RationalLiteral) :
  normalised a → normalised b → add a b = add b a.
Proof.
  unfold normalised. intros Ha Hb. unfold add.
  rewrite !bigint_rem_nonzero, !bigint_div_nonzero by lia.
  cbv [mbind res_bind].
  destruct (Z.eqb_spec (denominator a) (denominator b)) as [Heq | Hne].
  { rewrite Heq, Z.eqb_refl. f_equal. ring. }
  destruct (Z.eqb_spec (denominator b) (denominator a)) as [Heq | _]; [congruence |].
  destruct (Z.eqb_spec (Z.rem (denominator a) (denominator b)) 0) as [Hab | Hab];
    destruct (Z.eqb_spec (Z.rem (denominator b) (denominator a)) 0) as [Hba | Hba].
  - pose proof (rem_zero_le _ _ Ha Hb Hab). pose proof (rem_zero_le _ _ Hb Ha Hba). lia.
  - reflexivity.
  - reflexivity.
  - f_equal; ring.
Qed.

Lemma add_comm_witness :
  add (mkRationalLiteral 5 6) (mkRationalLiteral 2 3)
  = add (mkRationalLiteral 2 3) (mkRationalLiteral 5 6).
Proof.
  apply (add_comm (mkRationalLiteral 5 6) (mkRationalLiteral 2 3));
    unfold normalised; simpl; lia.
Defined.

(** Whatever subtract returns stands for the difference. *)
Lemma subtract_difference (a b r : RationalLiteral) :
  normalised a → normalised b → subtract a b = Ok r →
  normalised r
  ∧ numerator r * (denominator a * denominator b)
    = (numerator a * denominator b - numerator b * denominator a) * denominator r.
Proof.
  intros Ha Hb Hr. split; [by apply (subtract_normalised a b) |].
  unfold subtract in Hr. rewrite new_positive in Hr by exact Hb.
  cbv [mbind res_bind] in Hr.
  pose proof (add_sum a (mkRationalLiteral (- numerator b) (denominator b)) r
                Ha Hb Hr) as Hvalue.
  simpl in Hvalue. rewrite Hvalue. ring.
Qed.

(** X3: on normalised operands subtract returns a normalised literal that
    stands for the difference, and a literal minus itself is exactly zero
    over its own denominator. *)
Theorem subtract_value (a b : RationalLiteral) :
  normalised a → normalised b →
  (∃ r, subtract a b = Ok r
        ∧ normalised r
        ∧ numerator r * (denominator a * denominator b)
          = (numerator a * denominator b - numerator b * denominator a)
            * denominator r)
  ∧ subtract a a = Ok (mkRationalLiteral 0 (denominator a)).
Proof.
  intros Ha Hb. split.
  - destruct (subtract_returns a b Ha Hb) as [r Hr]. exists r.
    split; [exact Hr |]. by apply subtract_difference.
  - unfold subtract. rewrite new_positive by exact Ha. cbv [mbind res_bind].
    unfold add. simpl. rewrite Z.eqb_refl, new_positive by exact Ha.
    f_equal. f_equal. ring.
Qed.

Lemma subtract_value_witness :
  (∃ r, subtract (mkRationalLiteral 1 2) (mkRationalLiteral 1 3) = Ok r
        ∧ normalised r
        ∧ numerator r * (2 * 3) = (1 * 3 - 1 * 2) * denominator r)
  ∧ subtract (mkRationalLiteral 1 2) (mkRationalLiteral 1 2)
    = Ok (mkRationalLiteral 0 2).
Proof.
  apply (subtract_value (mkRationalLiteral 1 2) (mkRationalLiteral 1 3));
    unfold normalised; simpl; lia.
Defined.

(** X4: multiplying by a non-zero literal and dividing by it again returns a
    literal of the same value as the one started from, whatever the sign of
    the divisor. *)
Theorem multiply_divideBy (a b : RationalLiteral) :
  normalised a → normalised b → numerator b ≠ 0 →
  ∃ m q, multiply a b = Ok m
         ∧ divideBy m b = Ok q
         ∧ normalised q
         ∧ equalValueOf q a = true.
Proof.
  unfold normalised. intros Ha Hb Hn.
  exists (mkRationalLiteral (numerator a * numerator b)
            (denominator a * denominator b)).
  assert (Hd : 0 < denominator a * denominator b) by (apply Z.mul_pos_pos; lia).
  unfold multiply, divideBy, equalValueOf. rewrite (new_positive _ _ Hd). simpl.
  destruct (Z.lt_total (numerator b) 0) as [Hneg | [Hzero | Hpos]]; [| lia |].
  - eexists. rewrite new_negative by nia.
    split; [reflexivity |]. split; [reflexivity |]. simpl.
    split; [nia |]. apply Z.eqb_eq. ring.
  - eexists. rewrite new_positive by nia.
    split; [reflexivity |]. split; [reflexivity |]. simpl.
    split; [nia |]. apply Z.eqb_eq. ring.
Qed.

Lemma multiply_divideBy_witness :
  ∃ m q, multiply (mkRationalLiteral 3 4) (mkRationalLiteral (-5) 7) = Ok m
         ∧ divideBy m (mkRationalLiteral (-5) 7) = Ok q
         ∧ normalised q
         ∧ equalValueOf q (mkRationalLiteral 3 4) = true.
Proof.
  apply (multiply_divideBy (mkRationalLiteral 3 4) (mkRationalLiteral (-5) 7));
    unfold normalised; simpl; lia.
Defined.

(** X5: dividing a normalised literal raises the constructor's division
    error exactly when the divisor's numerator is zero; otherwise the result
    is normalised and stands for the quotient. *)
Theorem divideBy_zero (a b : RationalLiteral) :
  normalised a →
  (divideBy a b = Throw DivisionByZero ↔ numerator b = 0)
  ∧ (∀ r, divideBy a b = Ok r →
          normalised r
          ∧ numerator r * (denominator a * numerator b)
            = numerator a * denominator b * denominator r).
Proof.
  unfold normalised. intros Ha. unfold divideBy. split.
  - split.
    + intros Hthrow. destruct (Z.eq_dec (numerator b) 0) as [| Hn]; [done |].
      destruct (proj2 (new_returns_iff
        (numerator a * denominator b) (denominator a * numerator b))) as [r Hr];
        [nia | congruence].
    + intros ->. by rewrite Z.mul_0_r.
  - intros r Hr. split; [by apply new_normalised in Hr |].
    destruct (Z.lt_total (denominator a * numerator b) 0) as [Hneg | [Hzero | Hpos]].
    + rewrite new_negative in Hr by exact Hneg. injection Hr as <-. simpl. ring.
    + rewrite Hzero, new_zero in Hr. discriminate Hr.
    + rewrite new_positive in Hr by exact Hpos. injection Hr as <-. simpl. ring.
Qed.

Lemma divideBy_zero_witness :
  (divideBy (mkRationalLiteral 3 4) (mkRationalLiteral 0 9) = Throw DivisionByZero
   ↔ numerator (mkRationalLiteral 0 9) = 0)
  ∧ (∀ r, divideBy (mkRationalLiteral 3 4) (mkRationalLiteral 0 9) = Ok r →
          normalised r
          ∧ numerator r * (4 * 0) = 3 * 9 * denominator r).
Proof.
  apply (divideBy_zero (mkRationalLiteral 3 4) (mkRationalLiteral 0 9)).
  unfold normalised. simpl. lia.
Defined.

(** X6: mod by a literal whose numerator is zero does not reach the
    constructor: on normalised operands it raises the range error of the
    bigint remainder, and it raises that error in no other case. *)
Theorem mod_by_zero (a b : RationalLiteral) :
  normalised a → normalised b →
  (mod_ a b = Throw RangeError ↔ numerator b = 0)
  ∧ mod_ a b ≠ Throw DivisionByZero.
Proof.
  unfold normalised. intros Ha Hb. unfold mod_.
  destruct (Z.eq_dec (numerator b) 0) as [Hz | Hnz].
  - rewrite Hz. simpl. split; [done | discriminate].
  - rewrite bigint_rem_nonzero by nia. cbv [mbind res_bind].
    rewrite new_positive by (apply Z.mul_pos_pos; lia).
    split; [| discriminate]. split; [discriminate | done].
Qed.

Lemma mod_by_zero_witness :
  (mod_ (mkRationalLiteral 3 4) (mkRationalLiteral 0 1) = Throw RangeError
   ↔ numerator (mkRationalLiteral 0 1) = 0)
  ∧ mod_ (mkRationalLiteral 3 4) (mkRationalLiteral 0 1) ≠ Throw DivisionByZero.
Proof.
  apply (mod_by_zero (mkRationalLiteral 3 4) (mkRationalLiteral 0 1));
    unfold normalised; simpl; lia.
Defined.

(** X7: on a normalised literal toInteger returns k exactly when the
    numerator is k times the denominator, and null exactly when the
    denominator does not divide the numerator; it never raises. *)
Theorem toInteger_exact (a : RationalLiteral) :
  normalised a →
  (∀ k, toInteger a = Ok (Some k) ↔ numerator a = k * denominator a)
  ∧ (toInteger a = Ok None ↔ ¬ (denominator a | numerator a)).
Proof.
  unfold normalised. intros Ha. unfold toInteger.
  rewrite bigint_rem_nonzero, bigint_div_nonzero by lia. cbv [mbind res_bind].
  destruct (Z.eqb_spec (Z.rem (numerator a) (denominator a)) 0) as [Hr | Hr].
  - pose proof (rem_zero_exact (numerator a) (denominator a) ltac:(lia) Hr)
      as Hexact. split.
    + intros k. split.
      * intros [= <-]. lia.
      * intros Hk. do 2 f_equal. rewrite Hk. apply Z.quot_mul. lia.
    + split; [discriminate |]. intros Hndiv. destruct Hndiv.
      exists (numerator a ÷ denominator a). lia.
  - split.
    + intros k. split; [discriminate |]. intros Hk. destruct Hr.
      rewrite Hk. apply Z.rem_mul. lia.
    + split; [| done]. intros _ [c Hc]. destruct Hr.
      rewrite Hc. apply Z.rem_mul. lia.
Qed.

Lemma toInteger_exact_witness :
  (∀ k, toInteger (mkRationalLiteral 1500 10) = Ok (Some k) ↔ 1500 = k * 10)
  ∧ (toInteger (mkRationalLiteral 1500 10) = Ok None ↔ ¬ (10 | 1500)).
Proof.
  apply (toInteger_exact (mkRationalLiteral 1500 10)).
  unfold normalised. simpl. lia.
Defined.

(** X8: equalValueOf is reflexive and symmetric, and transitive through a
    normalised literal (a zero denominator in the middle would equal
    everything). *)
Theorem equalValueOf_equivalence (a b c : RationalLiteral) :
  equalValueOf a a = true
  ∧ equalValueOf a b = equalValueOf b a
  ∧ (normalised b → equalValueOf a b = true → equalValueOf b c = true →
     equalValueOf a c = true).
Proof.
  unfold equalValueOf, normalised. split; [apply Z.eqb_refl |].
  split; [apply Z.eqb_sym |].
  rewrite !Z.eqb_eq. intros Hb Hab Hbc.
  apply (Z.mul_cancel_r _ _ (denominator b)); [lia |].
  transitivity (numerator a * denominator b * denominator c); [ring |].
  rewrite Hab.
  transitivity (numerator b * denominator c * denominator a); [ring |].
  rewrite Hbc. ring.
Qed.

Lemma equalValueOf_equivalence_witness :
  equalValueOf (mkRationalLiteral 1 2) (mkRationalLiteral 3 6) = true.
Proof.
  destruct (equalValueOf_equivalence (mkRationalLiteral 1 2)
              (mkRationalLiteral 2 4) (mkRationalLiteral 3 6))
    as (_ & _ & Htrans).
  apply Htrans; [unfold normalised; simpl; lia | reflexivity | reflexivity].
Defined.

(** X9: greaterThan holds exactly when the operands are not of equal value
    and the converse comparison fails, and it is transitive on normalised
    literals. *)
Theorem greaterThan_order (a b c : RationalLiteral) :
  greaterThan a b = negb (equalValueOf a b || greaterThan b a)
  ∧ (normalised a → normalised b → normalised c →
     greaterThan a b = true → greaterThan b c = true → greaterThan a c = true).
Proof.
  unfold greaterThan, equalValueOf, normalised. rewrite !Z.gtb_ltb. split.
  - destruct (Z.ltb_spec (numerator b * denominator a) (numerator a * denominator b));
      destruct (Z.eqb_spec (numerator a * denominator b) (numerator b * denominator a));
      destruct (Z.ltb_spec (numerator a * denominator b) (numerator b * denominator a));
      simpl; try reflexivity; lia.
  - rewrite !Z.ltb_lt. intros Ha Hb Hc Hab Hbc.
    apply (Z.mul_lt_mono_pos_r (denominator b)); [exact Hb |].
    apply (Z.mul_lt_mono_pos_r (denominator a)) in Hbc; [| exact Ha].
    apply (Z.mul_lt_mono_pos_r (denominator c)) in Hab; [| exact Hc].
    lia.
Qed.

Lemma greaterThan_order_witness :
  greaterThan (mkRationalLiteral 3 4) (mkRationalLiteral (-1) 5) = true.
Proof.
  destruct (greaterThan_order (mkRationalLiteral 3 4) (mkRationalLiteral 2 3)
              (mkRationalLiteral (-1) 5)) as [_ Htrans].
  apply Htrans; unfold normalised; simpl; try lia; reflexivity.
Defined.

(** X10: greaterThan agrees with subtract: on normalised operands the first
    is greater exactly when the numerator of the difference is positive, and
    they are of equal value exactly when it is zero. *)
Theorem greaterThan_subtract (a b r : RationalLiteral) :
  normalised a → normalised b → subtract a b = Ok r →
  (greaterThan a b = true ↔ 0 < numerator r)
  ∧ (equalValueOf a b = true ↔ numerator r = 0).
Proof.
  intros Ha Hb Hr.
  destruct (subtract_difference a b r Ha Hb Hr) as [Hnorm Hvalue].
  unfold normalised in *. unfold greaterThan, equalValueOf.
  rewrite Z.gtb_ltb, Z.ltb_lt, Z.eqb_eq.
  assert (Hd : 0 < denominator a * denominator b) by (apply Z.mul_pos_pos; lia).
  set (d := denominator a * denominator b) in *.
  set (x := numerator a * denominator b) in *.
  set (y := numerator b * denominator a) in *.
  split; split; intros H; nia.
Qed.

Lemma greaterThan_subtract_witness :
  (greaterThan (mkRationalLiteral 1 2) (mkRationalLiteral 1 3) = true
   ↔ 0 < numerator (mkRationalLiteral 1 6))
  ∧ (equalValueOf (mkRationalLiteral 1 2) (mkRationalLiteral 1 3) = true
     ↔ numerator (mkRationalLiteral 1 6) = 0).
Proof.
  apply (greaterThan_subtract (mkRationalLiteral 1 2) (mkRationalLiteral 1 3)
           (mkRationalLiteral 1 6));
    [unfold normalised; simpl; lia | unfold normalised; simpl; lia | reflexivity].
Defined.

(** X11: on normalised operands exp never raises; it returns null exactly
    when the exponent is not an integer, and a normalised literal otherwise. *)
Theorem exp_returns (a b : RationalLiteral) :
  normalised a → normalised b →
  ∃ o, exp a b = Ok o
       ∧ (o = None ↔ toInteger b = Ok None)
       ∧ (∀ r, o = Some r → normalised r).
Proof.
  intros Ha Hb. destruct (toInteger_returns b Hb) as [k Hk].
  assert (Hresult : ∃ o, exp a b = Ok o ∧ (o = None ↔ k = None)).
  { unfold normalised in Ha. unfold exp. rewrite Hk. cbv [mbind res_bind].
    destruct k as [k |]; [| by exists None].
    destruct (Z.eqb_spec k 0) as [_ | Hk0].
    { eexists (Some _). split; [reflexivity | split; discriminate]. }
    destruct (Z.ltb_spec 0 k) as [Hpos | Hneg].
    { rewrite !bigint_pow_nonneg by lia.
      rewrite new_positive by (apply Z.pow_pos_nonneg; lia).
      eexists (Some _). split; [reflexivity | split; discriminate]. }
    destruct (Z.ltb_spec 0 (numerator a)) as [Hn | Hn].
    { rewrite !bigint_pow_nonneg by lia.
      rewrite new_positive by (apply Z.pow_pos_nonneg; lia).
      eexists (Some _). split; [reflexivity | split; discriminate]. }
    destruct (Z.ltb_spec (numerator a) 0) as [Hn' | Hn'].
    { rewrite !bigint_pow_nonneg by lia.
      rewrite new_positive by (apply Z.pow_pos_nonneg; lia).
      eexists (Some _). split; [reflexivity | split; discriminate]. }
    eexists (Some _). split; [reflexivity | split; discriminate]. }
  destruct Hresult as (o & Ho & Hnone). exists o. split; [exact Ho |]. split.
  - rewrite Hnone, Hk. split; [by intros -> | by intros [= ->]].
  - intros r ->. by apply (exp_normalised a b).
Qed.

Lemma exp_returns_witness :
  ∃ o, exp (mkRationalLiteral (-2) 3) (mkRationalLiteral (-6) 2) = Ok o
       ∧ (o = None ↔ toInteger (mkRationalLiteral (-6) 2) = Ok None)
       ∧ (∀ r, o = Some r → normalised r).
Proof.
  apply (exp_returns (mkRationalLiteral (-2) 3) (mkRationalLiteral (-6) 2));
    unfold normalised; simpl; lia.
Defined.

Lemma exp_positive a b k :
  normalised a → toInteger b = Ok (Some k) → 0 < k →
  exp a b = Ok (Some (mkRationalLiteral (numerator a ^ k) (denominator a ^ k))).
Proof.
  unfold normalised. intros Ha Hk Hpos. unfold exp. rewrite Hk.
  cbv [mbind res_bind].
  destruct (Z.eqb_spec k 0); [lia |]. destruct (Z.ltb_spec 0 k); [| lia].
  rewrite !bigint_pow_nonneg by lia.
  by rewrite new_positive by (apply Z.pow_pos_nonneg; lia).
Qed.

Lemma exp_negative a b k :
  normalised a → toInteger b = Ok (Some k) → k < 0 → numerator a ≠ 0 →
  exp a b = Ok (Some (if 0 <? numerator a
                      then mkRationalLiteral (denominator a ^ (- k))
                             (numerator a ^ (- k))
                      else mkRationalLiteral ((- denominator a) ^ (- k))
                             ((- numerator a) ^ (- k)))).
Proof.
  unfold normalised. intros Ha Hk Hneg Hn. unfold exp. rewrite Hk.
  cbv [mbind res_bind].
  destruct (Z.eqb_spec k 0); [lia |]. destruct (Z.ltb_spec 0 k); [lia |].
  rewrite !bigint_pow_nonneg by lia.
  destruct (Z.ltb_spec 0 (numerator a)).
  - by rewrite new_positive by (apply Z.pow_pos_nonneg; lia).
  - destruct (Z.ltb_spec (numerator a) 0); [| lia].
    by rewrite new_positive by (apply Z.pow_pos_nonneg; lia).
Qed.

Lemma power_product_one n d k :
  0 ≤ k →
  equalValueOf
    (mkRationalLiteral (n ^ k * (if 0 <? n then d ^ k else (- d) ^ k))
       (d ^ k * (if 0 <? n then n ^ k else (- n) ^ k)))
    (mkRationalLiteral 1 1) = true.
Proof.
  intros Hk. unfold equalValueOf. simpl. apply Z.eqb_eq.
  destruct (0 <? n); [ring |].
  rewrite !Z.mul_1_r, Z.mul_1_l, <- !Z.pow_mul_l. f_equal. ring.
Qed.

(** X12: for a normalised base with a non-zero numerator, the powers with
    exponents k and -k multiply to a literal of value one, whatever the sign
    of the base. *)
Theorem exp_reciprocal (a b b' : RationalLiteral) (k : Z) :
  normalised a → numerator a ≠ 0 →
  toInteger b = Ok (Some k) → toInteger b' = Ok (Some (- k)) →
  ∃ r r' p, exp a b = Ok (Some r)
            ∧ exp a b' = Ok (Some r')
            ∧ multiply r r' = Ok p
            ∧ equalValueOf p (mkRationalLiteral 1 1) = true.
Proof.
  intros Ha Hn Hk Hk'. pose proof Ha as Hd. unfold normalised in Hd.
  assert (Hpow : ∀ m, 0 ≤ m →
            0 < denominator a ^ m * (if 0 <? numerator a then numerator a ^ m
                                     else (- numerator a) ^ m)).
  { intros m Hm. apply Z.mul_pos_pos; [apply Z.pow_pos_nonneg; lia |].
    destruct (Z.ltb_spec 0 (numerator a)); apply Z.pow_pos_nonneg; lia. }
  destruct (Z.lt_total k 0) as [Hneg | [-> | Hpos]].
  - rewrite (exp_negative a b k Ha Hk Hneg Hn).
    rewrite (exp_positive a b' (- k) Ha Hk') by lia.
    specialize (Hpow (- k) ltac:(lia)).
    pose proof (power_product_one (numerator a) (denominator a) (- k) ltac:(lia))
      as Hone.
    destruct (0 <? numerator a);
      eexists _, _, _;
      (split; [reflexivity |]); (split; [reflexivity |]);
      unfold multiply; simpl; (rewrite new_positive by lia);
      (split; [reflexivity |]);
      unfold equalValueOf in *; simpl in *; rewrite Z.eqb_eq in *; lia.
  - unfold exp. rewrite Hk, Hk'. simpl.
    eexists _, _, _. repeat split; reflexivity.
  - rewrite (exp_positive a b k Ha Hk Hpos).
    rewrite (exp_negative a b' (- k) Ha Hk') by lia.
    rewrite Z.opp_involutive.
    specialize (Hpow k ltac:(lia)).
    pose proof (power_product_one (numerator a) (denominator a) k ltac:(lia))
      as Hone.
    destruct (0 <? numerator a);
      eexists _, _, _;
      (split; [reflexivity |]); (split; [reflexivity |]);
      unfold multiply; simpl; (rewrite new_positive by lia);
      (split; [reflexivity | exact Hone]).
Qed.

Lemma exp_reciprocal_witness :
  ∃ r r' p,
    exp (mkRationalLiteral (-2) 3) (mkRationalLiteral 3 1) = Ok (Some r)
    ∧ exp (mkRationalLiteral (-2) 3) (mkRationalLiteral (-3) 1) = Ok (Some r')
    ∧ multiply r r' = Ok p
    ∧ equalValueOf p (mkRationalLiteral 1 1) = true.
Proof.
  apply (exp_reciprocal (mkRationalLiteral (-2) 3) (mkRationalLiteral 3 1)
           (mkRationalLiteral (-3) 1) 3);
    [unfold normalised; simpl; lia | simpl; lia | reflexivity | reflexivity].
Defined.

End RationalArithmetic.

(** ** Literal parsing *)

Section ParsingProperties.

Import JS Rational.

Lemma isDigit_printed c : isDigit c = true → printedChar c = true.
Proof. intros H. unfold printedChar. by rewrite H. Qed.

Lemma allChars_digit_printed s :
  allChars isDigit s = true → allChars printedChar s = true.
Proof. apply allChars_impl, isDigit_printed. Qed.

(** What a decimal digit is and is not. *)
Lemma isDigit_cases c :
  isDigit c = true →
  Ascii.eqb c "-" = false ∧ Ascii.eqb c "/" = false
  ∧ digitValue c = Some (Z.of_N (N_of_ascii c) - 48)
  ∧ 0 ≤ Z.of_N (N_of_ascii c) - 48 < 10.
Proof.
  destruct c as [[] [] [] [] [] [] [] []]; vm_compute; intros H;
    first [discriminate H
          | repeat split; first [reflexivity | intros HH; discriminate HH]].
Qed.

(** A non-empty string of decimal digits is read as such. *)
Lemma StringToBigInt_digits s :
  s ≠ EmptyString → allChars isDigit s = true →
  StringToBigInt s = parseDigits 10 0 s.
Proof.
  intros Hne Hs. pose proof (allChars_digit_printed s Hs) as Hp.
  unfold StringToBigInt. rewrite (trimStart_printed s Hp), (trimEnd_printed s Hp).
  destruct s as [| c rest]; [done |].
  pose proof Hs as Hs'. simpl in Hs'. apply andb_true_iff in Hs' as [Hc Hrest].
  destruct (printedChar_cases c (isDigit_printed c Hc)) as (_ & _ & -> & _).
  destruct (isDigit_cases c Hc) as (-> & _).
  destruct rest as [| p digits]; [reflexivity |].
  simpl in Hrest. apply andb_true_iff in Hrest as [Hp' _].
  destruct (printedChar_cases p (isDigit_printed p Hp'))
    as (_ & _ & _ & _ & _ & -> & -> & -> & -> & -> & ->).
  by rewrite !andb_false_r.
Qed.

Lemma parseDigits_uint d acc :
  parseDigits 10 acc (NilEmpty.string_of_uint d) = Some (uintValue d acc).
Proof. revert acc. induction d; intros acc; simpl; auto. Qed.

Lemma uintValue_acc d (acc : positive) :
  uintValue d (Z.pos acc) = Z.pos (Pos.of_uint_acc d acc).
Proof.
  revert acc. induction d; intros acc; simpl; [reflexivity | ..];
    rewrite <- IHd; f_equal; lia.
Qed.

Lemma uintValue_of_uint d : uintValue d 0 = Z.of_uint d.
Proof.
  unfold Z.of_uint. induction d; simpl; [reflexivity | exact IHd | ..];
    apply (uintValue_acc d).
Qed.

Lemma NilZero_string_of_uint_digits d :
  NilZero.string_of_uint d ≠ EmptyString
  ∧ allChars isDigit (NilZero.string_of_uint d) = true
  ∧ parseDigits 10 0 (NilZero.string_of_uint d) = Some (Z.of_uint d).
Proof.
  destruct d; try (split; [discriminate |]; split; [apply uint_digits |];
                   rewrite <- uintValue_of_uint; apply parseDigits_uint).
  repeat split. discriminate.
Qed.

(** BigInt reads back what the bigint printing writes. *)
Lemma BigInt_toString n : BigInt (bigint_toString n) = Ok n.
Proof.
  unfold BigInt, bigint_toString.
  rewrite <- (DecimalZ.of_to n) at 2.
  destruct (Z.to_int n) as [d | d]; simpl.
  - destruct (NilZero_string_of_uint_digits d) as (Hne & Hdigits & Hvalue).
    by rewrite (StringToBigInt_digits _ Hne Hdigits), Hvalue.
  - destruct (NilZero_string_of_uint_digits d) as (Hne & Hdigits & Hvalue).
    pose proof (allChars_digit_printed _ Hdigits) as Hp.
    unfold StringToBigInt.
    assert (Hall : allChars printedChar (String "-" (NilZero.string_of_uint d)) = true)
      by (by simpl; rewrite Hp).
    rewrite (trimStart_printed _ Hall), (trimEnd_printed _ Hall).
    cbn [Ascii.eqb Bool.eqb]. simpl.
    destruct (NilZero.string_of_uint d) as [| c rest] eqn:Hs; [done |].
    unfold parseDigits1. by rewrite Hvalue.
Qed.

(** X13: every integer, printed in decimal with its sign, parses to that
    integer over one. *)
Theorem stringToLiteralValue_integer (n : Z) :
  stringToLiteralValue (bigint_toString n) = Ok (mkRationalLiteral n 1).
Proof.
  pose proof (bigint_toString_printed n) as Hs.
  unfold stringToLiteralValue.
  rewrite (removeChar_printed _ Hs), (startsWith_0x_printed _ Hs).
  rewrite (includes_allChars printedChar _ "e" eq_refl Hs).
  rewrite (includes_allChars printedChar _ "." eq_refl Hs).
  unfold intToLiteral. by rewrite BigInt_toString.
Qed.

Lemma toInteger_whole e : toInteger (mkRationalLiteral e 1) = Ok (Some e).
Proof.
  unfold toInteger, bigint_rem, bigint_div. simpl.
  by rewrite Z.rem_1_r, Z.quot_1_r.
Qed.

(** The factor of a scientific literal. *)
Lemma exp_ten e :
  exp (mkRationalLiteral 10 1) (mkRationalLiteral e 1)
  = Ok (Some (if e =? 0 then mkRationalLiteral 1 1
              else if 0 <? e then mkRationalLiteral (10 ^ e) 1
                   else mkRationalLiteral 1 (10 ^ (- e)))).
Proof.
  assert (Hten : normalised (mkRationalLiteral 10 1)) by (unfold normalised; simpl; lia).
  destruct (Z.eqb_spec e 0) as [-> | Hne]; [reflexivity |].
  destruct (Z.ltb_spec 0 e) as [Hpos | Hneg].
  - rewrite (exp_positive _ _ e Hten (toInteger_whole e) Hpos). simpl.
    by rewrite Z.pow_1_l by lia.
  - rewrite (exp_negative _ _ e Hten (toInteger_whole e)) by (simpl; lia). simpl.
    by rewrite Z.pow_1_l by lia.
Qed.

Lemma intToLiteral_denominator value r :
  intToLiteral value = Ok r → denominator r = 1.
Proof.
  unfold intToLiteral. cbv [mbind res_bind].
  destruct (BigInt value); [| discriminate]. by intros [= <-].
Qed.

Lemma decimalToLiteral_denominator value r :
  decimalToLiteral value = Ok r → ∃ k, 0 ≤ k ∧ denominator r = 10 ^ k.
Proof.
  unfold decimalToLiteral.
  destruct (split value "." 2 !! 0%nat) as [part0 |]; [| discriminate].
  destruct (split value "." 2 !! 1%nat) as [part1 |]; [| discriminate].
  destruct (_ && _).
  - intros [= <-]. exists 0. by split.
  - cbv [mbind res_bind]. destruct (BigInt _) as [n |]; [| discriminate].
    set (len := Z.of_nat (String.length (removeFirst "/0+$" part1))).
    assert (0 ≤ len) by (subst len; lia).
    rewrite bigint_pow_nonneg by done.
    rewrite new_positive by (apply Z.pow_pos_nonneg; lia).
    intros [= <-]. by exists len.
Qed.

Lemma scientificNotationToLiteral_denominator value r :
  scientificNotationToLiteral value = Ok r → ∃ k, 0 ≤ k ∧ denominator r = 10 ^ k.
Proof.
  unfold scientificNotationToLiteral.
  destruct (split value "e" 2 !! 0%nat) as [part0 |]; [| discriminate].
  cbv [mbind res_bind].
  destruct (if includes part0 "." then decimalToLiteral part0 else intToLiteral part0)
    as [coefficient |] eqn:Hcoefficient; [| discriminate].
  assert (Hc : ∃ k, 0 ≤ k ∧ denominator coefficient = 10 ^ k).
  { destruct (includes part0 ".").
    - by apply (decimalToLiteral_denominator part0).
    - exists 0. split; [done |]. by apply (intToLiteral_denominator part0). }
  destruct Hc as (k & Hk & Hden).
  destruct (split value "e" 2 !! 1%nat) as [part1 |]; [| discriminate].
  destruct (BigInt part1) as [exponent |]; [| discriminate].
  change (new 10 1) with (Ok (mkRationalLiteral 10 1)).
  change (new exponent 1) with (Ok (mkRationalLiteral exponent 1)).
  cbv beta iota. rewrite exp_ten. unfold multiply. rewrite Hden.
  destruct (Z.eqb_spec exponent 0) as [_ | Hne]; simpl.
  { rewrite new_positive by (rewrite Z.mul_1_r; apply Z.pow_pos_nonneg; lia).
    intros [= <-]. exists k. simpl. split; [done | ring]. }
  destruct (Z.ltb_spec 0 exponent) as [Hpos | Hneg]; simpl.
  { rewrite new_positive by (rewrite Z.mul_1_r; apply Z.pow_pos_nonneg; lia).
    intros [= <-]. exists k. simpl. split; [done | ring]. }
  rewrite <- Z.pow_add_r by lia.
  rewrite new_positive by (apply Z.pow_pos_nonneg; lia).
  intros [= <-]. exists (k + - exponent). simpl. split; [lia | done].
Qed.

(** X14: whatever the parser accepts is normalised and has a power of ten
    as denominator (one for the integer forms). *)
Theorem stringToLiteralValue_denominator (value : string) (r : RationalLiteral) :
  stringToLiteralValue value = Ok r →
  normalised r ∧ ∃ k, 0 ≤ k ∧ denominator r = 10 ^ k.
Proof.
  intros Hr.
  assert (Hk : ∃ k, 0 ≤ k ∧ denominator r = 10 ^ k).
  { unfold stringToLiteralValue in Hr.
    destruct (startsWith _ _).
    { exists 0. split; [done |]. by apply (intToLiteral_denominator value). }
    destruct (includes _ "e").
    { by apply (scientificNotationToLiteral_denominator value). }
    destruct (includes _ ".").
    { by apply (decimalToLiteral_denominator value). }
    exists 0. split; [done |]. by apply (intToLiteral_denominator value). }
  split; [| exact Hk]. destruct Hk as (k & Hk & Hden).
  unfold normalised. rewrite Hden. apply Z.pow_pos_nonneg; lia.
Qed.

Lemma stringToLiteralValue_denominator_witness :
  normalised (mkRationalLiteral 15 1000)
  ∧ ∃ k, 0 ≤ k ∧ denominator (mkRationalLiteral 15 1000) = 10 ^ k.
Proof.
  apply (stringToLiteralValue_denominator "1.5e-2" (mkRationalLiteral 15 1000)).
  reflexivity.
Defined.

(** *** Strings over a known alphabet *)

Lemma removeChar_absent s c : includes s c = false → removeChar c s = s.
Proof.
  induction s as [| c' s IH]; [done |]. simpl.
  destruct (Ascii.eqb c' c); [discriminate |]. simpl. intros H. by rewrite IH.
Qed.

Lemma startsWith_0x_absent s : includes s "x" = false → startsWith s "0x" = false.
Proof.
  unfold startsWith. destruct s as [| c [| p s]]; [done | |].
  - intros _. rewrite prefix_cons. by destruct (ascii_dec _ _).
  - cbn [includes]. rewrite !orb_false_iff. intros (_ & Hp & _).
    rewrite !prefix_cons. destruct (ascii_dec "0" c); [| done].
    destruct (ascii_dec "x" p) as [<- | ]; [discriminate Hp | done].
Qed.

Lemma splitAll_absent s c : includes s c = false → splitAll c s = [s].
Proof.
  induction s as [| c' s IH]; [done |]. simpl.
  destruct (Ascii.eqb c' c); [discriminate |]. simpl. intros H. by rewrite IH.
Qed.

Lemma splitAll_append s1 s2 c :
  includes s1 c = false →
  splitAll c (s1 +:+ String c s2) = s1 :: splitAll c s2.
Proof.
  induction s1 as [| c' s1 IH].
  - intros _. change (EmptyString +:+ String c s2) with (String c s2). simpl.
    by rewrite Ascii.eqb_refl.
  - rewrite append_cons. simpl.
    destruct (Ascii.eqb c' c); [discriminate |]. simpl. intros H. by rewrite IH.
Qed.

Lemma split_two s1 s2 c :
  includes s1 c = false → includes s2 c = false →
  split (s1 +:+ String c s2) c 2 = [s1; s2].
Proof.
  intros H1 H2. unfold split. by rewrite splitAll_append, splitAll_absent.
Qed.

Lemma removeFirst_unfold pattern s :
  removeFirst pattern s =
  if String.prefix pattern s
  then String.substring (String.length pattern)
         (String.length s - String.length pattern) s
  else match s with
       | EmptyString => EmptyString
       | String c s' => String c (removeFirst pattern s')
       end.
Proof. by destruct s. Qed.

(** The two patterns of decimalToLiteral start with a bar: on digits they
    match nowhere. *)
Lemma removeFirst_digits pattern s :
  allChars isDigit s = true → removeFirst (String "/" pattern) s = s.
Proof.
  induction s as [| c s IH]; [done |]. simpl allChars.
  rewrite andb_true_iff. intros [Hc Hs].
  rewrite removeFirst_unfold, prefix_cons.
  destruct (isDigit_cases c Hc) as (_ & Hbar & _).
  destruct (ascii_dec "/" c) as [<- | _]; [discriminate Hbar |].
  by rewrite IH.
Qed.

Lemma parseDigits_append radix s1 s2 acc :
  parseDigits radix acc (s1 +:+ s2)
  = parseDigits radix acc s1 ≫= fun acc' => parseDigits radix acc' s2.
Proof.
  revert acc. induction s1 as [| c s1 IH]; intros acc; [reflexivity |].
  rewrite append_cons. simpl.
  destruct (digitValue c); [| reflexivity]. destruct (_ <? radix); [| reflexivity].
  apply IH.
Qed.

(** The value of a string of decimal digits, after the digits read so far. *)
Lemma parseDigits_digits s :
  allChars isDigit s = true →
  ∃ V, 0 ≤ V
       ∧ ∀ acc, parseDigits 10 acc s
                = Some (acc * 10 ^ Z.of_nat (String.length s) + V).
Proof.
  induction s as [| c s IH].
  - intros _. exists 0. split; [done |]. intros acc. simpl. f_equal. lia.
  - simpl allChars. rewrite andb_true_iff. intros [Hc Hs].
    destruct (IH Hs) as (V & HV & Hparse).
    destruct (isDigit_cases c Hc) as (_ & _ & Hd & Hrange).
    set (d := Z.of_N (N_of_ascii c) - 48) in *.
    exists (d * 10 ^ Z.of_nat (String.length s) + V). split; [nia |].
    intros acc. cbn [parseDigits]. rewrite Hd.
    destruct (Z.ltb_spec d 10); [| lia]. rewrite Hparse. f_equal.
    cbn [String.length]. rewrite Nat2Z.inj_succ, Z.pow_succ_r by lia. ring.
Qed.

Lemma allChars_digit_absent s c :
  isDigit c = false → allChars isDigit s = true → includes s c = false.
Proof. apply includes_allChars. Qed.

Lemma BigInt_digits s V :
  allChars isDigit s = true → s ≠ EmptyString →
  parseDigits 10 0 s = Some V → BigInt s = Ok V.
Proof.
  intros Hs Hne HV. unfold BigInt.
  by rewrite (StringToBigInt_digits s Hne Hs), HV.
Qed.

Lemma append_empty s1 s2 : s1 +:+ s2 = EmptyString → s1 = EmptyString ∧ s2 = EmptyString.
Proof.
  destruct s1; [intros H; split; [reflexivity | exact H] |].
  rewrite append_cons. discriminate.
Qed.

(** X15: a decimal literal written as digits, a point and digits parses to
    the two digit strings read as one number, over ten to the number of
    digits after the point; no leading or trailing zero is dropped. *)
Theorem stringToLiteralValue_decimal (intPart decimalPart : string) :
  allChars isDigit intPart = true → allChars isDigit decimalPart = true →
  ∃ I F,
    parseDigits 10 0 intPart = Some I
    ∧ parseDigits 10 0 decimalPart = Some F
    ∧ stringToLiteralValue (intPart +:+ String "." decimalPart)
      = Ok (mkRationalLiteral
              (I * 10 ^ Z.of_nat (String.length decimalPart) + F)
              (10 ^ Z.of_nat (String.length decimalPart))).
Proof.
  intros Hi Hf.
  destruct (parseDigits_digits intPart Hi) as (I & HI & HparseI).
  destruct (parseDigits_digits decimalPart Hf) as (F & HF & HparseF).
  exists I, F.
  split; [rewrite HparseI; f_equal; ring |].
  split; [rewrite HparseF; f_equal; ring |].
  set (value := intPart +:+ String "." decimalPart).
  assert (Habsent : ∀ c, isDigit c = false → Ascii.eqb "." c = false →
                         includes value c = false).
  { intros c Hc Hpoint. subst value. rewrite includes_append.
    rewrite (allChars_digit_absent intPart c Hc Hi). cbn [includes orb].
    by rewrite Hpoint, (allChars_digit_absent decimalPart c Hc Hf). }
  assert (Hpoint : includes value "." = true).
  { subst value. rewrite includes_append. simpl. by rewrite orb_true_r. }
  unfold stringToLiteralValue.
  rewrite (removeChar_absent value "_") by (by apply Habsent).
  rewrite (startsWith_0x_absent value) by (by apply Habsent).
  rewrite (Habsent "e"%char eq_refl eq_refl), Hpoint.
  unfold decimalToLiteral. subst value.
  rewrite split_two by (by apply allChars_digit_absent).
  cbn [lookup list_lookup].
  rewrite !removeFirst_digits by done.
  destruct (String.eqb_spec intPart EmptyString) as [Hint | Hint];
    destruct (String.eqb_spec decimalPart EmptyString) as [Hdec | Hdec];
    cbn [andb].
  { subst intPart decimalPart. pose proof (HparseI 0) as H0. pose proof (HparseF 0) as H1.
    simpl in H0, H1. injection H0 as H0. injection H1 as H1.
    replace I with 0 by lia. replace F with 0 by lia. reflexivity. }
  all: cbv [mbind res_bind].
  all: rewrite (BigInt_digits (intPart +:+ decimalPart)
                  (I * 10 ^ Z.of_nat (String.length decimalPart) + F));
    [ rewrite bigint_pow_nonneg by lia;
      by rewrite new_positive by (apply Z.pow_pos_nonneg; lia)
    | by rewrite allChars_append, Hi, Hf
    | intros Hempty; apply append_empty in Hempty as [? ?]; congruence
    | rewrite parseDigits_append, HparseI; cbn; rewrite HparseF; f_equal; ring ].
Qed.

Lemma stringToLiteralValue_decimal_witness :
  ∃ I F,
    parseDigits 10 0 "007" = Some I
    ∧ parseDigits 10 0 "50" = Some F
    ∧ stringToLiteralValue "007.50"
      = Ok (mkRationalLiteral (I * 10 ^ 2 + F) (10 ^ 2)).
Proof.
  apply (stringToLiteralValue_decimal "007" "50"); reflexivity.
Defined.

(** X16: a scientific literal written as digits, the letter e and a decimal
    exponent parses to the coefficient times the power of ten: over one for a
    non-negative exponent, and as the coefficient over the power of ten for a
    negative one. *)
Theorem stringToLiteralValue_scientific (coefficient : string) (E : Z) :
  coefficient ≠ EmptyString → allChars isDigit coefficient = true →
  ∃ C, parseDigits 10 0 coefficient = Some C
       ∧ stringToLiteralValue (coefficient +:+ String "e" (bigint_toString E))
         = Ok (if 0 <=? E then mkRationalLiteral (C * 10 ^ E) 1
               else mkRationalLiteral C (10 ^ (- E))).
Proof.
  intros Hne Hc.
  destruct (parseDigits_digits coefficient Hc) as (C & HC & Hparse).
  assert (HparseC : parseDigits 10 0 coefficient = Some C)
    by (rewrite Hparse; f_equal; lia).
  exists C. split; [exact HparseC |].
  pose proof (bigint_toString_printed E) as HE.
  set (value := coefficient +:+ String "e" (bigint_toString E)).
  assert (Habsent : ∀ c, printedChar c = false → Ascii.eqb "e" c = false →
                         includes value c = false).
  { intros c Hprinted He. subst value. rewrite includes_append.
    rewrite (includes_allChars printedChar coefficient c Hprinted
               (allChars_digit_printed _ Hc)).
    cbn [includes orb].
    by rewrite He, (includes_allChars printedChar _ c Hprinted HE). }
  assert (Hletter : includes value "e" = true).
  { subst value. rewrite includes_append. cbn [includes].
    by rewrite Ascii.eqb_refl, orb_true_r. }
  unfold stringToLiteralValue.
  rewrite (removeChar_absent value "_") by (by apply Habsent).
  rewrite (startsWith_0x_absent value) by (by apply Habsent).
  rewrite Hletter.
  unfold scientificNotationToLiteral. subst value.
  rewrite split_two
    by first [by apply allChars_digit_absent
             | by apply (includes_allChars printedChar)].
  cbn [lookup list_lookup].
  rewrite (allChars_digit_absent coefficient "." eq_refl Hc).
  unfold intToLiteral. rewrite (BigInt_digits coefficient C Hc Hne HparseC).
  rewrite BigInt_toString.
  cbv [mbind res_bind].
  change (new C 1) with (Ok (mkRationalLiteral C 1)).
  change (new 10 1) with (Ok (mkRationalLiteral 10 1)).
  change (new E 1) with (Ok (mkRationalLiteral E 1)).
  cbv beta iota. rewrite exp_ten. unfold multiply.
  destruct (Z.eqb_spec E 0) as [-> | HE0]; cbn [numerator denominator].
  { rewrite new_positive by lia. cbn. by do 2 f_equal; try lia. }
  destruct (Z.ltb_spec 0 E) as [Hpos | Hneg]; cbn [numerator denominator].
  - destruct (Z.leb_spec 0 E); [| lia].
    rewrite new_positive by lia. do 2 f_equal.
  - destruct (Z.leb_spec 0 E); [lia |].
    rewrite Z.mul_1_r, Z.mul_1_l.
    by rewrite new_positive by (apply Z.pow_pos_nonneg; lia).
Qed.

Lemma stringToLiteralValue_scientific_witness :
  ∃ C, parseDigits 10 0 "15" = Some C
       ∧ stringToLiteralValue ("15" +:+ String "e" (bigint_toString (-3)))
         = Ok (if 0 <=? -3 then mkRationalLiteral (C * 10 ^ (-3)) 1
               else mkRationalLiteral C (10 ^ (- -3))).
Proof.
  apply (stringToLiteralValue_scientific "15" (-3)); [discriminate | reflexivity].
Defined.

(** *** Hexadecimal literals *)

Lemma digitValue_range c d : digitValue c = Some d → 0 ≤ d < 16.
Proof.
  destruct c as [[] [] [] [] [] [] [] []]; intros H; vm_compute in H;
    first [discriminate H | injection H as <-; lia].
Qed.

Lemma isHexDigit_cases c :
  isHexDigit c = true →
  isWhiteSpace c = false ∧ Ascii.eqb c "_" = false.
Proof.
  destruct c as [[] [] [] [] [] [] [] []]; vm_compute; intros H;
    first [discriminate H | split; reflexivity].
Qed.

Lemma trimEnd_no_space s :
  allChars (fun c => negb (isWhiteSpace c)) s = true → trimEnd s = s.
Proof.
  induction s as [| c s IH]; [done |]. simpl.
  rewrite andb_true_iff, negb_true_iff. intros [-> Hs]. rewrite (IH Hs).
  by destruct s.
Qed.

Lemma parseDigits_hex s :
  allChars isHexDigit s = true →
  ∀ acc, 0 ≤ acc → ∃ H, 0 ≤ H ∧ parseDigits 16 acc s = Some H.
Proof.
  induction s as [| c s IH]; intros Hs acc Hacc.
  - exists acc. by split.
  - simpl in Hs. apply andb_true_iff in Hs as [Hc Hs].
    unfold isHexDigit in Hc. cbn [parseDigits].
    destruct (digitValue c) as [d |] eqn:Hd; [| discriminate Hc].
    pose proof (digitValue_range c d Hd).
    destruct (Z.ltb_spec d 16); [| lia]. apply (IH Hs). lia.
Qed.

(** X17: a literal that starts with 0x is read in radix sixteen, also when a
    digit is the letter e: it never takes the scientific branch. *)
Theorem stringToLiteralValue_hex (digits : string) :
  digits ≠ EmptyString → allChars isHexDigit digits = true →
  ∃ H, 0 ≤ H
       ∧ parseDigits 16 0 digits = Some H
       ∧ stringToLiteralValue (String "0" (String "x" digits))
         = Ok (mkRationalLiteral H 1).
Proof.
  intros Hne Hdigits.
  destruct (parseDigits_hex digits Hdigits 0 ltac:(lia)) as (H & HH & Hparse).
  exists H. split; [exact HH |]. split; [exact Hparse |].
  assert (Hsep : includes digits "_" = false).
  { apply (includes_allChars isHexDigit); [reflexivity | exact Hdigits]. }
  unfold stringToLiteralValue. cbn [removeChar Ascii.eqb Bool.eqb].
  rewrite (removeChar_absent digits "_" Hsep).
  unfold startsWith. rewrite !prefix_cons.
  destruct (ascii_dec "0" "0"); [| done]. destruct (ascii_dec "x" "x"); [| done].
  cbn [String.prefix].
  unfold intToLiteral, BigInt, StringToBigInt.
  assert (Htrim : trimEnd (trimStart (String "0" (String "x" digits)))
                  = String "0" (String "x" digits)).
  { change (trimStart (String "0" (String "x" digits)))
      with (String "0" (String "x" digits)).
    apply trimEnd_no_space. cbn [allChars]. apply andb_true_iff.
    split; [reflexivity |]. apply andb_true_iff. split; [reflexivity |].
    apply (allChars_impl isHexDigit); [| exact Hdigits].
    intros c Hc. by destruct (isHexDigit_cases c Hc) as [-> _]. }
  rewrite Htrim. cbn [Ascii.eqb Bool.eqb andb orb].
  unfold parseDigits1. destruct digits; [done |]. by rewrite Hparse.
Qed.

Lemma stringToLiteralValue_hex_witness :
  ∃ H, 0 ≤ H
       ∧ parseDigits 16 0 "1e" = Some H
       ∧ stringToLiteralValue "0x1e" = Ok (mkRationalLiteral H 1).
Proof.
  apply (stringToLiteralValue_hex "1e"); [discriminate | reflexivity].
Defined.

End ParsingProperties.

(** ** Types without a translation *)

Section TranslatableTypes.

Import TypeWriter.

Variable canonicalMangler : string → string.
Variable typeNodeToString : TypeNode → string.


End TranslatableTypes.


(** ** The tuple branch of the splitter: ids and failures *)

Section SplitterTupleProperties.

Import VariableDeclarationExpressionSplitter.

Variable getNodeType : Expression → TypeNode.
Variable pp : TypeNode → string.

(** The world after [n] ids were reserved. *)
Local Abbreviation reserved w n :=
  (mkWorld (lastId w + n) (lastUsedConstantId w) (events w)).

(** A slot either emits nothing and leaves the world as it is, or emits one
    statement under the next id; its only failure is the assertion. *)
Lemma splitSlot_cases node src comps L tupleIndex w :
  match splitSlot node src comps L tupleIndex w with
  | Ok (None, w') => w' = w
  | Ok (Some s, w') => Statement_id s = S (lastId w) ∧ w' = reserved w 1%nat
  | Throw e =>
      e = AssertionError
      ∧ ∃ declId, L = Some declId
                  ∧ findDeclaration (VDS.vDeclarations node) declId = None
  end.
Proof.
  unfold splitSlot. destruct L as [declId |].
  - destruct (findDeclaration _ declId) eqn:Hfind; simpl.
    + split; [reflexivity |]. f_equal. lia.
    + split; [reflexivity |]. by exists declId.
  - destruct (comps !! tupleIndex) as [[component |] |]; simpl;
      try reflexivity; (split; [reflexivity |]; f_equal; lia).
Qed.



Lemma mapWithIndex_throw {A B} (f : A → nat → M B) index x l w e :
  f x index w = Throw e → mapWithIndex f index (x :: l) w = Throw e.
Proof. intros H. by rewrite mapWithIndex_cons, H. Qed.

(** The slots return exactly when their ids have declarations. *)
Lemma mapWithIndex_returns node src comps ids :
  ∀ index w,
    (Forall (fun L => ∀ declId, L = Some declId →
               is_Some (findDeclaration (VDS.vDeclarations node) declId)) ids →
     ∃ slots w', mapWithIndex (splitSlot node src comps) index ids w = Ok (slots, w'))
    ∧ (¬ Forall (fun L => ∀ declId, L = Some declId →
                   is_Some (findDeclaration (VDS.vDeclarations node) declId)) ids →
       mapWithIndex (splitSlot node src comps) index ids w = Throw AssertionError).
Proof.
  induction ids as [| L ids IH]; intros index w.
  - split; [by eexists _, _ | intros H; destruct H; constructor].
  - pose proof (splitSlot_cases node src comps L index w) as Hslot.
    destruct (splitSlot node src comps L index w) as [[slot w1] | e] eqn:Hsplit.
    + assert (HL : ∀ declId, L = Some declId →
                is_Some (findDeclaration (VDS.vDeclarations node) declId)).
      { intros declId ->. unfold splitSlot in Hsplit.
        destruct (findDeclaration _ declId); [by eexists | discriminate Hsplit]. }
      destruct (IH (S index) w1) as [Hok Hthrow]. rewrite mapWithIndex_cons, Hsplit.
      split.
      * intros Hall. apply Forall_cons in Hall as [_ Hall].
        destruct (Hok Hall) as (slots & w2 & ->). by eexists _, _.
      * intros Hnot. rewrite Hthrow; [reflexivity |].
        intros Hall. apply Hnot. by constructor.
    + destruct Hslot as (-> & declId & -> & Hnone).
      rewrite (mapWithIndex_throw _ _ _ _ _ _ Hsplit). split; [| done].
      intros Hall. apply Forall_cons in Hall as [HL _].
      destruct (HL declId eq_refl) as [decl Hdecl]. congruence.
Qed.

(** X20: the tuple branch returns exactly when every non-null assignment id
    has a declaration in the statement, whatever the number of components
    of the tuple, and its only failure is the assertion error. *)
Theorem splitDeclaration_tuple_returns (node : VDS.t) (id : nat)
    (src typeString : string) (isInlineArray : bool)
    (vOriginalComponents : list (option Expression)) (w : World) :
  (1 < length (VDS.vDeclarations node))%nat →
  VDS.vInitialValue node
    = Some (TupleExpression id src typeString isInlineArray vOriginalComponents) →
  (declarationsResolve node →
   ∃ statements w', splitDeclaration getNodeType pp node w = Ok (statements, w'))
  ∧ (¬ declarationsResolve node →
     splitDeclaration getNodeType pp node w = Throw AssertionError).
Proof.
  intros Hmany Hinitial. unfold splitDeclaration, declarationsResolve.
  rewrite (more_than_one_declaration node Hmany), Hinitial.
  destruct (mapWithIndex_returns node src vOriginalComponents
              (VDS.assignments node) 0 w) as [Hok Hthrow].
  split.
  - intros Hall. destruct (Hok Hall) as (slots & w' & Hslots).
    rewrite (M_bind_ok _ _ _ _ _ Hslots). by eexists _, _.
  - intros Hnot. by rewrite (M_bind_throw _ _ _ _ (Hthrow Hnot)).
Qed.

Lemma append_inj_prefix p s1 s2 : p +:+ s1 = p +:+ s2 → s1 = s2.
Proof.
  induction p as [| c p IH]; [done |].
  rewrite !append_cons. intros [= H]. by apply IH.
Qed.

Lemma bigint_toString_inj n m :
  JS.bigint_toString n = JS.bigint_toString m → n = m.
Proof.
  intros H. pose proof (BigInt_toString n) as Hn. rewrite H, BigInt_toString in Hn.
  congruence.
Qed.

(** X21: generateNewConstantName returns the same name for two states of the
    pass exactly when their counters are equal, and each call moves the
    counter up by one and leaves the context alone: two calls in one
    compilation never return the same name. *)
Theorem generateNewConstantName_fresh (w1 w2 w1' w2' : World) (n1 n2 : string) :
  generateNewConstantName w1 = Ok (n1, w1') →
  generateNewConstantName w2 = Ok (n2, w2') →
  (n1 = n2 ↔ lastUsedConstantId w1 = lastUsedConstantId w2)
  ∧ lastUsedConstantId w1' = S (lastUsedConstantId w1)
  ∧ lastId w1' = lastId w1 ∧ events w1' = events w1.
Proof.
  unfold generateNewConstantName, number_toString.
  intros [= <- <-] [= <- <-]. simpl. split; [| done]. split.
  - intros H. apply append_inj_prefix, bigint_toString_inj in H. lia.
  - by intros ->.
Qed.

End SplitterTupleProperties.

Section SplitterTupleInstances.

Import VariableDeclarationExpressionSplitter.


Lemma splitDeclaration_tuple_returns_witness :
  splitDeclaration Sample.callType (fun _ => "uint256") Sample.danglingStatement
    Sample.world = Throw AssertionError.
Proof.
  destruct (splitDeclaration_tuple_returns Sample.callType (fun _ => "uint256")
              Sample.danglingStatement 81 "1:1:1" "tuple()" false
              [Some (Sample.number 82 "1"); Some (Sample.number 83 "2")]
              Sample.world) as [_ Hthrow].
  - simpl. lia.
  - reflexivity.
  - apply Hthrow. unfold declarationsResolve. simpl. intros Hall.
    apply Forall_cons in Hall as [_ Hall]. apply Forall_cons in Hall as [H13 _].
    destruct (H13 13%nat eq_refl) as [decl Hdecl]. discriminate Hdecl.
Defined.

Lemma generateNewConstantName_fresh_witness :
  ("__warp_td_0" = "__warp_td_1" ↔ 0%nat = 1%nat)
  ∧ 1%nat = 1%nat ∧ 50%nat = 50%nat ∧ @nil Event = [].
Proof.
  apply (generateNewConstantName_fresh Sample.world (mkWorld 50 1 [])
           (mkWorld 50 1 []) (mkWorld 50 2 []) "__warp_td_0" "__warp_td_1");
    reflexivity.
Defined.

End SplitterTupleInstances.

(** ** The call branch of the splitter *)

Section SplitterCallProperties.

Import VariableDeclarationExpressionSplitter.

Variable getNodeType : Expression → TypeNode.
Variable pp : TypeNode → string.

(** When every declared type is the type the call returns for its slot, the
    callback changes nothing. *)
Lemma extractSlots_matching node elements ids :
  ∀ index decls statements w,
    (∀ i declId, ids !! i = Some (Some declId) →
       ∃ decl element,
         findDeclaration decls declId = Some decl
         ∧ elements !! (index + i)%nat = Some element
         ∧ VD.typeString decl = pp element) →
    extractSlots pp node elements index ids decls statements w
    = Ok ((ids, decls, statements), w).
Proof.
  induction ids as [| L ids IH]; intros index decls statements w Hmatch;
    [reflexivity |].
  assert (Hrest : extractSlots pp node elements (S index) ids decls statements w
                  = Ok ((ids, decls, statements), w)).
  { apply IH. intros i declId Hi.
    destruct (Hmatch (S i) declId Hi) as (decl & element & Hfind & Helement & Htype).
    exists decl, element. split; [exact Hfind |]. split; [| exact Htype].
    rewrite <- Helement. f_equal. lia. }
  destruct L as [declId |]; cbn [extractSlots].
  - destruct (Hmatch 0%nat declId eq_refl) as (decl & element & -> & Helement & Htype).
    rewrite Nat.add_0_r in Helement. rewrite Helement, Htype, String.eqb_refl.
    by rewrite (M_bind_ok _ _ _ _ _ Hrest).
  - by rewrite (M_bind_ok _ _ _ _ _ Hrest).
Qed.

(** X22: in the call branch, when the declaration of every non-null slot
    has, textually, the type the call returns for that slot, the splitter
    reserves no id, makes no name and logs nothing: it returns the one
    statement, with its assignments as they were and the declarations that
    an assignment names. *)
Theorem splitDeclaration_call_matching (node : VDS.t) (call : Expression)
    (elements : list TypeNode) (w : World) :
  (1 < length (VDS.vDeclarations node))%nat →
  VDS.vInitialValue node = Some call →
  isFunctionCall call = true →
  getNodeType call = TupleType elements →
  (∀ i declId, VDS.assignments node !! i = Some (Some declId) →
     ∃ decl element,
       findDeclaration (VDS.vDeclarations node) declId = Some decl
       ∧ elements !! i = Some element
       ∧ VD.typeString decl = pp element) →
  splitDeclaration getNodeType pp node w
  = Ok ([DeclarationStatement
           (VDS.make (VDS.id node) (VDS.src node) (VDS.type node)
              (VDS.assignments node)
              (filter (fun decl => Some (VD.id decl) ∈ VDS.assignments node)
                 (VDS.vDeclarations node))
              (VDS.vInitialValue node) (VDS.documentation node) (VDS.raw node))],
        w).
Proof.
  intros Hmany Hinitial Hcall Htype Hmatch. unfold splitDeclaration.
  rewrite (more_than_one_declaration node Hmany), Hinitial.
  destruct call; try discriminate Hcall. rewrite Htype.
  rewrite (M_bind_ok _ _ _ _ _
             (extractSlots_matching node elements (VDS.assignments node) 0
                (VDS.vDeclarations node) [] w Hmatch)).
  reflexivity.
Qed.

Lemma extractSlots_invariant node elements ids :
  ∀ index decls statements w newIds decls' statements' w',
    extractSlots pp node elements index ids decls statements w
    = Ok ((newIds, decls', statements'), w') →
    ∃ added temporaries,
      statements' = statements ++ added
      ∧ decls' = decls ++ temporaries
      ∧ length temporaries = length added
      ∧ Forall2 (fun L L' => L = None ↔ L' = None) ids newIds
      ∧ Forall followUp added
      ∧ lastId w' = (lastId w + 4 * length added)%nat
      ∧ lastUsedConstantId w' = (lastUsedConstantId w + length added)%nat.
Proof.
  induction ids as [| L ids IH];
    intros index decls statements w newIds decls' statements' w' H.
  { injection H as <- <- <- <-. exists [], [].
    rewrite !app_nil_r. repeat split; try constructor; simpl; lia. }
  cbn [extractSlots] in H. destruct L as [declId |].
  - destruct (findDeclaration decls declId) as [oldDeclaration |] eqn:Hfind;
      [| discriminate H].
    destruct (elements !! index) as [element |]; [| discriminate H].
    destruct (String.eqb _ _).
    + unfold mbind, M_bind in H.
      destruct (extractSlots _ _ _ (S index) ids decls statements w)
        as [[[[ids1 decls1] statements1] w1] | e] eqn:Hrest; [| discriminate H].
      injection H as <- <- <- <-.
      destruct (IH _ _ _ _ _ _ _ _ Hrest)
        as (added & temporaries & -> & -> & Hlen & Hids & Hfollow & Hid & Hname).
      exists added, temporaries. repeat split; try done.
      constructor; [split; discriminate | exact Hids].
    + unfold mbind, M_bind, reserveId, generateNewConstantName, emit in H.
      cbn [lastId lastUsedConstantId events] in H.
      match type of H with
      | context [extractSlots _ _ _ _ _ ?d ?s ?v] =>
          destruct (extractSlots pp node elements (S index) ids d s v)
            as [[[[ids1 decls1] statements1] w1] | e] eqn:Hrest;
            [| discriminate H]
      end.
      injection H as <- <- <- <-.
      destruct (IH _ _ _ _ _ _ _ _ Hrest)
        as (added & temporaries & -> & -> & Hlen & Hids & Hfollow & Hid & Hname).
      eexists (_ :: added), (_ :: temporaries).
      rewrite <- (app_assoc decls), <- (app_assoc statements).
      split; [reflexivity |]. split; [reflexivity |].
      split; [simpl; lia |].
      split; [constructor; [split; discriminate | exact Hids] |].
      split.
      * constructor; [| exact Hfollow].
        eexists oldDeclaration, _. by repeat split.
      * cbn [lastId lastUsedConstantId] in Hid, Hname. simpl. lia.
  - unfold mbind, M_bind in H.
    destruct (extractSlots _ _ _ (S index) ids decls statements w)
      as [[[[ids1 decls1] statements1] w1] | e] eqn:Hrest; [| discriminate H].
    injection H as <- <- <- <-.
    destruct (IH _ _ _ _ _ _ _ _ Hrest)
      as (added & temporaries & -> & -> & Hlen & Hids & Hfollow & Hid & Hname).
    exists added, temporaries. repeat split; try done.
    constructor; [done | exact Hids].
Qed.

(** X23: when the call branch returns, the first statement is the original
    one with the call still its initialiser and its slots null where they
    were null, each of its declarations is named by one of its assignments,
    every statement after it binds exactly one declaration to an identifier,
    and each of those statements has cost one generated name and four ids. *)
Theorem splitDeclaration_call (node : VDS.t) (call : Expression)
    (elements : list TypeNode) (w w' : World) (statements : list Statement) :
  (1 < length (VDS.vDeclarations node))%nat →
  VDS.vInitialValue node = Some call →
  isFunctionCall call = true →
  getNodeType call = TupleType elements →
  splitDeclaration getNodeType pp node w = Ok (statements, w') →
  ∃ node' followUps,
    statements = DeclarationStatement node' :: (DeclarationStatement <$> followUps)
    ∧ VDS.id node' = VDS.id node
    ∧ VDS.vInitialValue node' = Some call
    ∧ Forall2 (fun L L' => L = None ↔ L' = None)
        (VDS.assignments node) (VDS.assignments node')
    ∧ Forall (fun decl => Some (VD.id decl) ∈ VDS.assignments node')
        (VDS.vDeclarations node')
    ∧ Forall followUp followUps
    ∧ lastId w' = (lastId w + 4 * length followUps)%nat
    ∧ lastUsedConstantId w' = (lastUsedConstantId w + length followUps)%nat.
Proof.
  intros Hmany Hinitial Hcall Htype. unfold splitDeclaration.
  rewrite (more_than_one_declaration node Hmany), Hinitial.
  destruct call; try discriminate Hcall. rewrite Htype.
  unfold mbind, M_bind.
  destruct (extractSlots _ _ _ 0 _ _ [] w)
    as [[[[newIds decls] followUps] w1] | e] eqn:Hslots; [| discriminate].
  intros [= <- <-].
  destruct (extractSlots_invariant _ _ _ _ _ _ _ _ _ _ _ Hslots)
    as (added & temporaries & Hadded & _ & _ & Hids & Hfollow & Hid & Hname).
  simpl in Hadded. subst added.
  eexists _, followUps. split; [reflexivity |]. cbn [VDS.id VDS.vInitialValue
    VDS.assignments VDS.vDeclarations].
  repeat split; try done.
  apply Forall_forall. intros decl Hdecl.
  by apply list_elem_of_filter in Hdecl as [Hin _].
Qed.

End SplitterCallProperties.

Section SplitterCallInstances.

Import VariableDeclarationExpressionSplitter.

Lemma splitDeclaration_call_matching_witness :
  splitDeclaration Sample.tupleType Sample.printType Sample.matchingStatement
    Sample.world
  = Ok ([DeclarationStatement Sample.matchingStatement], Sample.world).
Proof.
  apply (splitDeclaration_call_matching Sample.tupleType Sample.printType
           Sample.matchingStatement
           (FunctionCall 91 "0:0:0" "tuple(uint256,uint256)"
              (OtherExpression 92 "0:0:0" "Identifier" "function") [])
           [IntType 256 false; IntType 256 false] Sample.world).
  - simpl. lia.
  - reflexivity.
  - reflexivity.
  - reflexivity.
  - intros [| [| i]] declId Hi; try discriminate Hi; injection Hi as <-;
      eexists _, _; repeat split; reflexivity.
Defined.

Lemma splitDeclaration_call_witness :
  ∃ node' followUps,
    [DeclarationStatement Sample.rewrittenStatement;
     DeclarationStatement Sample.followUpStatement]
      = DeclarationStatement node' :: (DeclarationStatement <$> followUps)
    ∧ VDS.id node' = VDS.id Sample.mismatchStatement
    ∧ VDS.vInitialValue node'
      = Some (FunctionCall 91 "0:0:0" "tuple(uint8,uint256)"
                (OtherExpression 92 "0:0:0" "Identifier" "function") [])
    ∧ Forall2 (fun L L' => L = None ↔ L' = None)
        (VDS.assignments Sample.mismatchStatement) (VDS.assignments node')
    ∧ Forall (fun decl => Some (VD.id decl) ∈ VDS.assignments node')
        (VDS.vDeclarations node')
    ∧ Forall followUp followUps
    ∧ 54%nat = (lastId Sample.world + 4 * length followUps)%nat
    ∧ 1%nat = (lastUsedConstantId Sample.world + length followUps)%nat.
Proof.
  apply (splitDeclaration_call Sample.mismatchType Sample.printType
           Sample.mismatchStatement
           (FunctionCall 91 "0:0:0" "tuple(uint8,uint256)"
              (OtherExpression 92 "0:0:0" "Identifier" "function") [])
           [IntType 8 false; IntType 256 false] Sample.world
           (mkWorld 54 1
              [registerChild (VariableDeclarationNode Sample.temporary)
                 (StatementNode (DeclarationStatement
                    (VDS.make 90 "0:0:0" "VariableDeclarationStatement"
                       [Some 11%nat; Some 12%nat]
                       [Sample.declaration 11 "a"; Sample.declaration 12 "b";
                        Sample.temporary]
                       (Some (FunctionCall 91 "0:0:0" "tuple(uint8,uint256)"
                                (OtherExpression 92 "0:0:0" "Identifier" "function")
                                []))
                       None None)));
               setContextRecursive
                 (StatementNode (DeclarationStatement Sample.followUpStatement))])).
  - simpl. lia.
  - reflexivity.
  - reflexivity.
  - reflexivity.
  - vm_compute. reflexivity.
Defined.

End SplitterCallInstances.

(** ** Mapping accesses in the storage rewriter *)

Section MappingAccessProperties.

Import StorageVariableAccessRewriter.

Variable locate : nat → option Declaration.
Variable getClosestParentByType_CairoContract : Assignment → option CairoContract.
Variable getNodeType : Expression → TypeNode.
Variable pp : TypeNode → string.
Variable toHexString : string → string.
Variable typeNameFromTypeNode : TypeNode → M TypeName.
Variable cloneTypeName : TypeName → M TypeName.
Variable storageWrite : VariableDeclaration.t → Expression → Expression → M Expression.
Variable writeMapping : Expression → Expression → TypeName → Expression → M Expression.
Variable readMapping : Expression → Expression → TypeName → M Expression.
Variable dispatchVisit : Expression → M unit.
Variable commonVisit : Assignment → M unit.
Variable commonVisitExpression : Expression → M unit.

Local Abbreviation visit :=
  (visitAssignment locate getClosestParentByType_CairoContract getNodeType pp
     toHexString typeNameFromTypeNode storageWrite writeMapping dispatchVisit
     commonVisit).

Local Abbreviation visitIndex :=
  (visitIndexAccess locate getNodeType cloneTypeName readMapping
     commonVisitExpression).

(** X24: an assignment to an index access is rewritten only when the base is
    a pointer to a mapping: then an id is reserved for the Mapping type name,
    the key and the value type names are built in that order, writeMapping
    makes the call, the call replaces the assignment and the visit goes on in
    the call.  A base of any other type is not supported, and a mapping
    without index is an assertion failure. *)
Theorem visitAssignment_index_access (node : Assignment) (id : nat)
    (src typeString : string) (base : Expression) (index : option Expression)
    (w : World) :
  vLeftHandSide node = IndexAccess id src typeString base index →
  (∀ keyType valueType location i,
     getNodeType base = PointerType (MappingType keyType valueType) location →
     index = Some i →
     visit node w =
       match typeNameFromTypeNode keyType
               (mkWorld (S (lastId w)) (lastUsedConstantId w) (events w)) with
       | Ok (keyTypeName, w1) =>
           match typeNameFromTypeNode valueType w1 with
           | Ok (valueTypeName, w2) =>
               match writeMapping base i
                       (Mapping (S (lastId w)) "" "Mapping"
                          (pp (MappingType keyType valueType))
                          keyTypeName valueTypeName)
                       (vRightHandSide node) w2 with
               | Ok (call, w3) =>
                   dispatchVisit call
                     (mkWorld (lastId w3) (lastUsedConstantId w3)
                        (events w3 ++ [replaceNode (AssignmentNode node)
                                         (ExpressionNode call)]))
               | Throw e => Throw e
               end
           | Throw e => Throw e
           end
       | Throw e => Throw e
       end)
  ∧ (∀ keyType valueType location,
       getNodeType base = PointerType (MappingType keyType valueType) location →
       index = None → visit node w = Throw AssertionError)
  ∧ ((∀ keyType valueType location,
        getNodeType base ≠ PointerType (MappingType keyType valueType) location) →
     visit node w = Throw NotSupportedYetError).
Proof.
  intros Hlhs. unfold visitAssignment. rewrite Hlhs. split; [| split].
  - intros keyType valueType location i -> ->.
    unfold mbind, M_bind, reserveId, emit.
    destruct (typeNameFromTypeNode keyType _) as [[keyTypeName w1] | e]; [| done].
    destruct (typeNameFromTypeNode valueType w1) as [[valueTypeName w2] | e]; [| done].
    by destruct (writeMapping _ _ _ _ w2) as [[call w3] | e].
  - by intros keyType valueType location -> ->.
  - intros Hother. destruct (getNodeType base) as [ | | | | | | | | | to location | | | ];
      try reflexivity.
    destruct to; try reflexivity. by destruct (Hother to1 to2 location).
Qed.


(** X26: when the base is an identifier of a variable declaration whose type
    name clones to a Mapping, the read is replaced by the call readMapping
    makes from the base, the index and the clone, and the visit goes on in
    the call; a type name that is missing or does not clone to a Mapping is
    an assertion failure. *)
Theorem visitIndexAccess_mapping (id : nat) (src typeString : string)
    (baseId : nat) (baseSrc baseType baseTypeString name : string)
    (referencedDeclaration : nat) (i : Expression)
    (keyType valueType : TypeNode) (location : DataLocation.t)
    (decl : VariableDeclaration.t) (w : World) :
  let base := Identifier baseId baseSrc baseType baseTypeString name
                referencedDeclaration in
  getNodeType base = PointerType (MappingType keyType valueType) location →
  locate referencedDeclaration = Some (DeclaredVariable decl) →
  (VD.vType decl = None →
   visitIndex id src typeString base (Some i) w = Throw AssertionError)
  ∧ (∀ vType,
       VD.vType decl = Some vType →
       visitIndex id src typeString base (Some i) w =
         match cloneTypeName vType w with
         | Ok (Mapping mid msrc mtype mstring key value as type, w1) =>
             match readMapping base i type w1 with
             | Ok (call, w2) =>
                 commonVisitExpression call
                   (mkWorld (lastId w2) (lastUsedConstantId w2)
                      (events w2
                       ++ [replaceNode
                             (ExpressionNode
                                (IndexAccess id src typeString base (Some i)))
                             (ExpressionNode call)]))
             | Throw e => Throw e
             end
         | Ok (_, _) => Throw AssertionError
         | Throw e => Throw e
         end).
Proof.
  cbv zeta. intros Htype Hdecl. unfold visitIndexAccess.
  rewrite Htype, Hdecl. split.
  - by intros ->.
  - intros vType ->. unfold mbind, M_bind, emit.
    destruct (cloneTypeName vType w) as [[type w1] | e]; [| done].
    by destruct type.
Qed.

End MappingAccessProperties.

Section MappingAccessInstances.

Import StorageVariableAccessRewriter.

Lemma visitAssignment_index_access_witness :
  visitAssignment Sample.locate (fun _ => Some Sample.contract) Sample.callType
    Sample.printType (fun s => s) Sample.typeNameFromTypeNode Sample.storageWrite
    Sample.writeMapping Sample.visitNothing Sample.visitNothing
    Sample.mappingAssignment Sample.world
  = Throw NotSupportedYetError.
Proof.
  destruct (visitAssignment_index_access Sample.locate
              (fun _ => Some Sample.contract) Sample.callType Sample.printType
              (fun s => s) Sample.typeNameFromTypeNode Sample.storageWrite
              Sample.writeMapping Sample.visitNothing Sample.visitNothing
              Sample.mappingAssignment 101 "0:0:0" "uint256"
              (Identifier 102 "0:0:0" "Identifier" "mapping(uint256 => uint256)"
                 "m" 7)
              (Some (Sample.number 103 "1")) Sample.world)
    as (_ & _ & Hother); [reflexivity |].
  apply Hother. discriminate.
Defined.


Lemma visitIndexAccess_mapping_witness :
  visitIndexAccess Sample.locate Sample.mappingType (fun t => mret t)
    Sample.readMapping Sample.visitNothing 101 "0:0:0" "uint256"
    (Identifier 102 "0:0:0" "Identifier" "mapping" "x" 7)
    (Some (Sample.number 103 "1")) Sample.world
  = Throw AssertionError.
Proof.
  destruct (visitIndexAccess_mapping Sample.locate Sample.mappingType
              (fun t => mret t) Sample.readMapping Sample.visitNothing
              101 "0:0:0" "uint256" 102 "0:0:0" "Identifier" "mapping" "x" 7
              (Sample.number 103 "1") (IntType 256 false) (IntType 256 false)
              DataLocation.Storage Sample.stateDeclaration Sample.world)
    as [_ Hclone]; [reflexivity | reflexivity |].
  rewrite (Hclone (ElementaryTypeName 8 "0:0:0" "ElementaryTypeName"
                     "uint256" "uint256")); reflexivity.
Defined.

End MappingAccessInstances.

(** ** Printing *)

Section PrintingProperties.

Import JS Rational.

Lemma bigint_toString_no_bar n : includes (bigint_toString n) "/" = false.
Proof.
  assert (Huint : ∀ d, includes (NilZero.string_of_uint d) "/" = false).
  { intros d. apply (includes_allChars isDigit); [reflexivity |].
    destruct d; try apply uint_digits. reflexivity. }
  unfold bigint_toString. destruct (Z.to_int n); simpl; apply Huint.
Qed.

Lemma append_bar_inj s1 :
  ∀ s2 t1 t2,
    includes s1 "/" = false → includes s2 "/" = false →
    s1 +:+ String "/" t1 = s2 +:+ String "/" t2 → s1 = s2 ∧ t1 = t2.
Proof.
  induction s1 as [| c s1 IH]; intros [| c' s2] t1 t2 H1 H2 Heq.
  - by injection Heq as ->.
  - rewrite append_cons in Heq. injection Heq as <- _.
    cbn [includes] in H2. by rewrite Ascii.eqb_refl in H2.
  - rewrite append_cons in Heq. injection Heq as -> _.
    cbn [includes] in H1. by rewrite Ascii.eqb_refl in H1.
  - rewrite !append_cons in Heq. injection Heq as -> Heq.
    cbn [includes] in H1, H2. apply orb_false_iff in H1 as [_ H1].
    apply orb_false_iff in H2 as [_ H2].
    destruct (IH s2 t1 t2 H1 H2 Heq) as [-> ->]. by split.
Qed.

(** X27: toString is injective: two literals print the same string exactly
    when they have the same numerator and the same denominator, so 1/2 and
    2/4, equal in value, print differently. *)
Theorem toString_inj (a b : RationalLiteral) : toString a = toString b ↔ a = b.
Proof.
  split; [| by intros ->]. unfold toString. intros H.
  apply append_bar_inj in H as [Hn Hd]; try apply bigint_toString_no_bar.
  apply bigint_toString_inj in Hn, Hd. destruct a, b. simpl in *. congruence.
Qed.

End PrintingProperties.
